(** * The JKU ground-truth parser ([parsers/jku_parser.py]) in Rocq

    A shallow embedding of the four functions of the script,
    [get_out_file], [parse_patterns], [get_gt_patterns] and [process],
    and the theorems that settle what the specification says about them.

    - Python values are modelled as the script has them: paths and CSV fields
      are strings, [pattern_n] and [occ_n] are unbounded integers ([Z]),
      times, durations and pitches are binary64 floats (Rocq's primitive
      floats), lists are lists.
    - An exception is a value of [exn]; a computation that can raise and
      write files is a function from the world to a result and a world, and
      the world survives an exception (the monad [M]).
    - What the script reads (directory listings, file contents) and the
      builtins [float], [int] and [csv.reader] are interfaces ([FileSystem],
      [Builtins]); the general theorems hold for every instance.  The module
      [Python] gives executable instances for the concrete runs. *)

From Stdlib Require Import ZArith Lia List Ascii String.
From Stdlib Require Import PrimFloat SpecFloat FloatOps.
From stdpp Require Import base option list strings gmap.

Set Default Proof Using "Type".
Local Open Scope Z_scope.

(** ** Exceptions and results *)

Inductive exn :=
| AssertionError
| IndexError
| ValueError
| OSError.

#[global] Instance exn_eq_dec : EqDecision exn.
Proof. solve_decision. Defined.

Definition result (A : Type) : Type := exn + A.

Definition bind_result {A B} (r : result A) (k : A -> result B) : result B :=
  match r with
  | inl e => inl e
  | inr a => k a
  end.

(** ** Python list and string operations used by the script *)

(** [l[i]], with Python's negative indices; out of range is [IndexError]. *)
Definition getitem {A} (l : list A) (i : Z) : result A :=
  let n := Z.of_nat (length l) in
  let j := if i <? 0 then i + n else i in
  if (j <? 0) || (n <=? j) then inl IndexError
  else match l !! Z.to_nat j with
       | Some x => inr x
       | None => inl IndexError
       end.

(** [l.index(x)]: the first position of [x]; [ValueError] when absent. *)
Fixpoint list_index `{EqDecision A} (x : A) (l : list A) : result Z :=
  match l with
  | [] => inl ValueError
  | y :: l' =>
      if decide (y = x) then inr 0
      else bind_result (list_index x l') (fun i => inr (i + 1))
  end.

(** [l.remove(x)]: drops the first element equal to [x]. *)
Fixpoint list_remove `{EqDecision A} (x : A) (l : list A) : list A :=
  match l with
  | [] => []
  | y :: l' => if decide (y = x) then l' else y :: list_remove x l'
  end.

(** [s.split(sep)] for a one-character separator. *)
Fixpoint str_split (sep : ascii) (s : string) : list string :=
  match s with
  | EmptyString => [EmptyString]
  | String c s' =>
      if Ascii.eqb c sep then EmptyString :: str_split sep s'
      else match str_split sep s' with
           | [] => [String c EmptyString]
           | f :: fs => String c f :: fs
           end
  end.

Definition slash : ascii := "/"%char.

Definition starts_with_slash (s : string) : bool :=
  match s with
  | String c _ => Ascii.eqb c slash
  | EmptyString => false
  end.

Fixpoint ends_with_slash (s : string) : bool :=
  match s with
  | EmptyString => false
  | String c EmptyString => Ascii.eqb c slash
  | String _ s' => ends_with_slash s'
  end.

(** [os.path.join(a, *p)] of [posixpath]. *)
Definition path_join (a : string) (p : list string) : string :=
  foldl (fun path b =>
           if starts_with_slash b then b
           else if String.eqb path "" || ends_with_slash path then path +:+ b
           else path +:+ "/" +:+ b) a p.

Arguments path_join : simpl never.

(** [os.path.split(p)[1]]: what follows the last slash. *)
Fixpoint path_tail (p : string) : string :=
  match p with
  | EmptyString => EmptyString
  | String c p' =>
      if Ascii.eqb c slash then path_tail p'
      else if existsb (Ascii.eqb slash) (list_ascii_of_string p') then path_tail p'
      else p
  end.

(** ** The annotation document (the [jams] objects the script builds) *)

Record Curator := { curator_name : string; curator_email : string }.

Record AnnotationMetadata :=
  { curator : Curator; version : string; corpus : string }.

(** The [value] dictionary of one observation. *)
Record Value :=
  { midi_pitch : float;
    morph_pitch : float;
    staff : Z;
    pattern_id : Z;
    occurrence_id : Z }.

Record Observation :=
  { time : float; duration : float; value : Value }.

Record Annotation :=
  { namespace : string;
    annotation_metadata : AnnotationMetadata;
    data : list Observation }.

Record JAMS := { annotations : list Annotation }.

(** Modelled from the spec: [annot.data.add_observation] of the [jams]
    package, which is not among the sources.  The specification has the
    builder append one observation per row to the document's observation
    list, in order. *)
Definition add_observation (annot : Annotation) (t d : float) (v : Value)
  : Annotation :=
  {| namespace := namespace annot;
     annotation_metadata := annotation_metadata annot;
     data := data annot ++ [ {| time := t; duration := d; value := v |} ] |}.

(** [jam.annotations.append(annot)]. *)
Definition annotations_append (jam : JAMS) (annot : Annotation) : JAMS :=
  {| annotations := annotations jam ++ [annot] |}.

(** ** The world the script writes to *)

(** [files] is what is on disk under each name, [saved] the history of
    [save] calls, oldest first, and [made_dirs] the directories created. *)
Record world :=
  { made_dirs : list string;
    files : gmap string JAMS;
    saved : list (string * JAMS) }.

(** ** The monad of the script: exceptions over a world that survives them *)

Definition M (A : Type) : Type := world -> result A * world.

Definition ret {A} (a : A) : M A := fun w => (inr a, w).
Definition raise {A} (e : exn) : M A := fun w => (inl e, w).
Definition bind {A B} (m : M A) (k : A -> M B) : M B :=
  fun w => match m w with
           | (inl e, w') => (inl e, w')
           | (inr a, w') => k a w'
           end.
Definition lift {A} (r : result A) : M A := fun w => (r, w).

#[global] Instance M_ret : MRet M := @ret.
#[global] Instance M_bind : MBind M := fun A B k m => bind m k.

(** [for x in xs: s = body(x, s)], the loop variables threaded as [s]. *)
Fixpoint for_each {A S} (xs : list A) (body : A -> S -> M S) (s : S) : M S :=
  match xs with
  | [] => ret s
  | x :: xs' => s' ← body x s; for_each xs' body s'
  end.

(** Modelled from the spec: [JAMS.save] of the [jams] package, which is not
    among the sources; the specification has it persist the document at the
    path it is given.  A file already under that name is replaced. *)
Definition save (jam : JAMS) (path : string) : M unit :=
  fun w => (inr tt, {| made_dirs := made_dirs w;
                       files := <[path := jam]> (files w);
                       saved := saved w ++ [(path, jam)] |}).

(** ** What the script reads, and the builtins it converts with *)

(** What the operating system answers the script during a run.  [glob] is
    [glob.glob] (the matches of a pattern, in listing order), [isdir] is
    [os.path.isdir] and [open_read] is the text of a file opened for reading
    ([None] when it cannot be opened): the script asks these once the output
    directory is there, and they answer for the tree as it then is.
    [path_exists] is [os.path.exists], asked once, for the output directory,
    before anything else.  [makedirs_outcome] is what [os.makedirs] does for
    a path that does not exist: the exception it raises (the path is empty,
    lies below a file, may not be written, ...) or the directories it
    creates, missing parents first.  No assumption is made on any of
    them. *)
Class FileSystem :=
  { glob : string -> list string;
    isdir : string -> bool;
    path_exists : string -> bool;
    open_read : string -> option string;
    makedirs_outcome : string -> result (list string) }.

(** [os.makedirs(path)]: it raises and creates nothing, or creates the
    directories that were missing. *)
Definition makedirs `{FS : FileSystem} (path : string) : M unit :=
  fun w => match makedirs_outcome path with
           | inl e => (inl e, w)
           | inr dirs => (inr tt, {| made_dirs := made_dirs w ++ dirs;
                                     files := files w;
                                     saved := saved w |})
           end.

(** [float(s)] and [int(s)] on a string ([None] is [ValueError]) and the rows
    [csv.reader] yields for the text of a file. *)
Class Builtins :=
  { py_float : string -> option float;
    py_int : string -> option Z;
    csv_reader : string -> list (list string) }.

Definition convert {A} (o : option A) : M A :=
  match o with
  | Some a => ret a
  | None => raise ValueError
  end.

(** ** [get_out_file] *)

Definition get_out_file (patterns : list (list string)) (out_dir : string)
  : result string :=
  if negb (0 <? Z.of_nat (length patterns)) then inl AssertionError
  else
    bind_result (getitem patterns 0) (fun pattern0 =>
    bind_result (getitem pattern0 0) (fun occ0 =>
    let name_split := str_split slash occ0 in
    bind_result (list_index "groundTruth"%string name_split) (fun i =>
    let idx_offset := i - 1 in
    bind_result (getitem name_split (idx_offset + 2)) (fun a =>
    bind_result (getitem name_split (idx_offset + 3)) (fun b =>
    inr (path_join out_dir [a +:+ "-" +:+ b +:+ ".txt"])))))).

Section Script.
Context `{FS : FileSystem} `{B : Builtins}.

(** ** [parse_patterns] *)

(** [open(occ_file, "r")] followed by [csv.reader(f)]. *)
Definition open_csv (occ_file : string) : M (list (list string)) :=
  match open_read occ_file with
  | Some text => ret (csv_reader text)
  | None => raise OSError
  end.

(** The body of [for fields in file_reader]: the [value] dictionary is
    built first, then the arguments [time] and [duration]. *)
Definition row_body (pattern_n occ_n : Z) (fields : list string)
    (annot : Annotation) : M Annotation :=
  f1 ← lift (getitem fields 1); midi ← convert (py_float f1);
  f2 ← lift (getitem fields 2); morph ← convert (py_float f2);
  f4 ← lift (getitem fields 4); st ← convert (py_int f4);
  let value := {| midi_pitch := midi; morph_pitch := morph; staff := st;
                  pattern_id := pattern_n; occurrence_id := occ_n |} in
  f0 ← lift (getitem fields 0); t ← convert (py_float f0);
  f3 ← lift (getitem fields 3); d ← convert (py_float f3);
  mret (add_observation annot t d value).

(** The body of [for occ_file in pattern], on [(occ_n, annot)]. *)
Definition occ_body (pattern_n : Z) (occ_file : string)
    (s : Z * Annotation) : M (Z * Annotation) :=
  let '(occ_n, annot) := s in
  file_reader ← open_csv occ_file;
  annot ← for_each file_reader (row_body pattern_n occ_n) annot;
  mret (occ_n + 1, annot).

(** The body of [for pattern in patterns], on [(pattern_n, annot)]. *)
Definition pattern_body (pattern : list string)
    (s : Z * Annotation) : M (Z * Annotation) :=
  let '(pattern_n, annot) := s in
  '(_, annot) ← for_each pattern (occ_body pattern_n) (1, annot);
  mret (pattern_n + 1, annot).

Definition new_annotation : Annotation :=
  {| namespace := "pattern_jku";
     annotation_metadata :=
       {| curator := {| curator_name := "Tom Collins";
                        curator_email := "tom.collins@dmu.ac.uk" |};
          version := "August2013";
          corpus := "JKU Development Dataset" |};
     data := [] |}.

Definition parse_patterns (patterns : list (list string)) (out_file : string)
  : M unit :=
  let jam := {| annotations := [] |} in
  let annot := new_annotation in
  '(_, annot) ← for_each patterns pattern_body (1, annot);
  let jam := annotations_append jam annot in
  save jam "test.jams".

(** ** [get_gt_patterns] *)

Definition get_gt_patterns (annotators : list string) : list (list string) :=
  foldl (fun P annotator =>
    let patterns := glob (path_join annotator ["*"%string]) in
    foldl (fun P pattern =>
      if isdir pattern then
        let occurrences :=
          glob (path_join pattern ["occurrences"; "csv"; "*.csv"]%string) in
        let O := foldl (fun O occurrence => O ++ [occurrence]) [] occurrences in
        P ++ [O]
      else P) P patterns) [] annotators.

(** ** [process] *)

Definition valid_annotators : list string :=
  ["barlowAndMorgensternRevised"; "bruhn"; "schoenberg";
   "sectionalRepetitions"; "tomCollins"]%string.

(** [for annotator in annotators: if ...: annotators.remove(annotator)].
    The list iterator keeps a position [i] into the list that the body
    shrinks: each round reads [annotators[i]] of the list as it then is, and
    stops once [i] is past its end.  [fuel] bounds the rounds. *)
Fixpoint remove_invalid (fuel : nat) (i : nat) (annotators : list string)
  : list string :=
  match fuel with
  | O => annotators
  | S fuel' =>
      match annotators !! i with
      | None => annotators
      | Some annotator =>
          let annotators :=
            if bool_decide (path_tail annotator ∉ valid_annotators)
            then list_remove annotator annotators
            else annotators in
          remove_invalid fuel' (S i) annotators
      end
  end.

Definition types : list string := ["monophonic"; "polyphonic"]%string.

(** The annotators of one piece and type, after the polyphonic filter. *)
Definition annotators_of (piece type : string) : list string :=
  let annotators := glob (path_join piece [type; "repeatedPatterns"; "*"]%string) in
  if String.eqb type "polyphonic"
  then remove_invalid (length annotators) 0 annotators
  else annotators.

(** The main loop: one entry of [all_patterns] per piece and type.  (The
    [logging.info] line of each piece writes to the log only and is left
    out.) *)
Definition collect_patterns (pieces : list string) : list (list (list string)) :=
  foldl (fun all_patterns piece =>
    foldl (fun all_patterns type =>
      all_patterns ++ [get_gt_patterns (annotators_of piece type)])
      all_patterns types) [] pieces.

Definition process (jku_dir out_dir : string) : M unit :=
  (if negb (path_exists out_dir) then makedirs out_dir else mret tt);;
  let pieces := glob (path_join jku_dir ["groundTruth"; "*"]%string) in
  let all_patterns := collect_patterns pieces in
  for_each all_patterns (fun patterns _ =>
    out_file ← lift (get_out_file patterns out_dir);
    parse_patterns patterns out_file) tt.

End Script.

(** ** Executable instances of the builtins, for ASCII text *)

Module Python.

Definition code (c : ascii) : Z := Z.of_N (N_of_ascii c).

Definition is_digit (c : ascii) : bool := (48 <=? code c) && (code c <=? 57).

(** The characters [str.strip] drops. *)
Definition is_space (c : ascii) : bool :=
  ((9 <=? code c) && (code c <=? 13))
  || ((28 <=? code c) && (code c <=? 32)).

Fixpoint lstrip (s : list ascii) : list ascii :=
  match s with
  | c :: s' => if is_space c then lstrip s' else s
  | [] => []
  end.

Definition strip (s : list ascii) : list ascii :=
  rev (lstrip (rev (lstrip s))).

(** An underscore is accepted between two digits only, and dropped. *)
Fixpoint drop_underscores (prev_digit : bool) (s : list ascii)
  : option (list ascii) :=
  match s with
  | [] => Some []
  | c :: s' =>
      if Ascii.eqb c "_" then
        match s' with
        | d :: _ => if prev_digit && is_digit d
                    then drop_underscores false s' else None
        | [] => None
        end
      else cons c <$> drop_underscores (is_digit c) s'
  end.

Fixpoint span_digits (s : list ascii) : list ascii * list ascii :=
  match s with
  | c :: s' => if is_digit c
               then let '(ds, r) := span_digits s' in (c :: ds, r)
               else ([], s)
  | [] => ([], [])
  end.

Definition digits_value (ds : list ascii) : Z :=
  foldl (fun acc c => 10 * acc + (code c - 48)) 0 ds.

(** An optional sign: [true] is minus. *)
Definition split_sign (s : list ascii) : bool * list ascii :=
  match s with
  | c :: s' => if Ascii.eqb c "-" then (true, s')
               else if Ascii.eqb c "+" then (false, s') else (false, s)
  | [] => (false, [])
  end.

Definition lower (c : ascii) : ascii :=
  if (65 <=? code c) && (code c <=? 90)
  then ascii_of_N (Z.to_N (code c + 32)) else c.

(** [int(s)] in base 10. *)
Definition int (s : string) : option Z :=
  body ← drop_underscores false (strip (list_ascii_of_string s));
  let '(neg, r) := split_sign body in
  let '(ds, rest) := span_digits r in
  match ds, rest with
  | _ :: _, [] => Some (if neg then - digits_value ds else digits_value ds)
  | _, _ => None
  end.

(** The binary64 nearest to [m * 10^e10] (ties to even), [m > 0]. *)
Definition round_decimal (neg : bool) (m e10 : Z) : float :=
  if 0 <=? e10 then
    SF2Prim (binary_normalize prec emax
               (if neg then - (m * 10 ^ e10) else m * 10 ^ e10) 0 neg)
  else
    let '(q, e, l) := SFdiv_core_binary prec emax m 0 (10 ^ (- e10)) 0 in
    SF2Prim (binary_round_aux prec emax neg q e l).

(** The exponent part: empty, or [e] or [E], an optional sign and digits. *)
Definition exponent (s : list ascii) : option Z :=
  match s with
  | [] => Some 0
  | c :: s' =>
      if Ascii.eqb (lower c) "e" then
        let '(neg, r) := split_sign s' in
        let '(ds, rest) := span_digits r in
        match ds, rest with
        | _ :: _, [] => Some (if neg then - digits_value ds else digits_value ds)
        | _, _ => None
        end
      else None
  end.

(** [float(s)]: an optional sign, then [inf], [infinity], [nan] or a decimal
    number with an optional fraction and exponent, rounded to the nearest
    binary64.  Digits and spaces outside ASCII are not covered. *)
Definition float (s : string) : option PrimFloat.float :=
  body ← drop_underscores false (strip (list_ascii_of_string s));
  let '(neg, r) := split_sign body in
  let word := string_of_list_ascii (map lower r) in
  if String.eqb word "inf" || String.eqb word "infinity"
  then Some (if neg then neg_infinity else infinity)
  else if String.eqb word "nan" then Some nan
  else
    let '(ip, r1) := span_digits r in
    let '(fp, r2) := match r1 with
                     | c :: r' => if Ascii.eqb c "." then span_digits r'
                                  else ([], r1)
                     | [] => ([], [])
                     end in
    match ip ++ fp with
    | [] => None
    | ds =>
        e ← exponent r2;
        let m := digits_value ds in
        if m =? 0 then Some (if neg then neg_zero else zero)
        else Some (round_decimal neg m (e - Z.of_nat (length fp)))
    end.

(** [csv.reader] with the default dialect (comma, double quote, doubled
    quotes inside a quoted field), on the text of a file opened in text
    mode, whose line ends all read as a line feed. *)
Inductive csv_state :=
| StartRecord | StartField | InField | InQuotedField | QuoteInQuotedField.

Definition lf : ascii := ascii_of_N 10.
Definition cr : ascii := ascii_of_N 13.
Definition quote : ascii := ascii_of_N 34.
Definition comma : ascii := ","%char.

Fixpoint universal_newlines (s : list ascii) : list ascii :=
  match s with
  | c :: s' =>
      if Ascii.eqb c cr then
        match s' with
        | d :: s'' => if Ascii.eqb d lf then lf :: universal_newlines s''
                      else lf :: universal_newlines s'
        | [] => [lf]
        end
      else c :: universal_newlines s'
  | [] => []
  end.

Definition save_field (field : list ascii) (fields : list string)
  : list string :=
  fields ++ [string_of_list_ascii (rev field)].

(** [field] holds the characters of the current field, last first. *)
Fixpoint csv_rows (st : csv_state) (field : list ascii) (fields : list string)
    (s : list ascii) : list (list string) :=
  match s with
  | [] =>
      match st with
      | StartRecord => []
      | _ => [save_field field fields]
      end
  | c :: s' =>
      match st with
      | StartRecord | StartField =>
          if Ascii.eqb c lf then
            match st with
            | StartRecord => [] :: csv_rows StartRecord [] [] s'
            | _ => save_field field fields :: csv_rows StartRecord [] [] s'
            end
          else if Ascii.eqb c quote then csv_rows InQuotedField field fields s'
          else if Ascii.eqb c comma
               then csv_rows StartField [] (save_field field fields) s'
          else csv_rows InField (c :: field) fields s'
      | InField =>
          if Ascii.eqb c lf
          then save_field field fields :: csv_rows StartRecord [] [] s'
          else if Ascii.eqb c comma
               then csv_rows StartField [] (save_field field fields) s'
          else csv_rows InField (c :: field) fields s'
      | InQuotedField =>
          if Ascii.eqb c quote then csv_rows QuoteInQuotedField field fields s'
          else csv_rows InQuotedField (c :: field) fields s'
      | QuoteInQuotedField =>
          if Ascii.eqb c quote then csv_rows InQuotedField (c :: field) fields s'
          else if Ascii.eqb c comma
               then csv_rows StartField [] (save_field field fields) s'
          else if Ascii.eqb c lf
               then save_field field fields :: csv_rows StartRecord [] [] s'
          else csv_rows InField (c :: field) fields s'
      end
  end.

Definition reader (text : string) : list (list string) :=
  csv_rows StartRecord [] [] (universal_newlines (list_ascii_of_string text)).

#[global] Instance builtins : Builtins :=
  {| py_float := float; py_int := int; csv_reader := reader |}.

End Python.

(** ** A directory tree as a [FileSystem], for the concrete runs *)

Module Tree.

#[warnings="-register-all"] Inductive node :=
| File (text : string)
| Dir (entries : list (string * node)).

Fixpoint entry (name : string) (entries : list (string * node)) : option node :=
  match entries with
  | [] => None
  | (n, x) :: entries' => if String.eqb n name then Some x else entry name entries'
  end.

(** The node a path leads to from the working directory [n]; empty
    segments (doubled or trailing slashes) are skipped. *)
Fixpoint resolve (segments : list string) (n : node) : option node :=
  match segments with
  | [] => Some n
  | s :: segments' =>
      if String.eqb s "" then resolve segments' n
      else match n with
           | Dir entries =>
               match entry s entries with
               | Some n' => resolve segments' n'
               | None => None
               end
           | File _ => None
           end
  end.

Definition at_path (root : node) (path : string) : option node :=
  if String.eqb path "" then None else resolve (str_split slash path) root.

Definition has_suffix (suffix name : string) : bool :=
  String.prefix (string_of_list_ascii (rev (list_ascii_of_string suffix)))
                (string_of_list_ascii (rev (list_ascii_of_string name))).

Definition hidden (name : string) : bool := String.prefix "." name.

(** [glob.glob] for a pattern [dir/*suffix] with a literal directory: the
    entries of [dir] that are not hidden and end in [suffix], in the order
    of the listing, each joined to [dir]. *)
Definition tree_glob (root : node) (pattern : string) : list string :=
  let segments := str_split slash pattern in
  let dirname := String.concat "/" (removelast segments) in
  match List.last segments "" with
  | String "*" suffix =>
      match at_path root dirname with
      | Some (Dir entries) =>
          map (fun e => path_join dirname [e.1])
              (filter (fun e => negb (hidden e.1) && has_suffix suffix e.1 = true)
                      entries)
      | _ => []
      end
  | _ => if bool_decide (is_Some (at_path root pattern)) then [pattern] else []
  end.

(** The directories [os.makedirs] has to create along [segments] below
    [done], the part of the path gone through ([None] at the start): each
    missing one, parents first.  A segment that is a file stops it with an
    error. *)
Fixpoint missing_dirs (root : node) (leading_slash : bool)
    (done : option string) (segments : list string) : result (list string) :=
  match segments with
  | [] => inr []
  | s :: segments' =>
      let p := match done with
               | None => if leading_slash then "/" +:+ s else s
               | Some d => d +:+ "/" +:+ s
               end in
      match at_path root p with
      | Some (File _) => inl OSError
      | Some (Dir _) => missing_dirs root leading_slash (Some p) segments'
      | None =>
          bind_result (missing_dirs root leading_slash (Some p) segments')
                      (fun dirs => inr (p :: dirs))
      end
  end.

(** [os.makedirs] on the tree: an error for the empty path, for a path that
    is there already and for one that runs through a file; otherwise the
    missing directories, recorded without doubled or trailing slashes. *)
Definition tree_makedirs (root : node) (path : string) : result (list string) :=
  match missing_dirs root (starts_with_slash path) None
          (filter (fun s => s <> ""%string) (str_split slash path)) with
  | inl e => inl e
  | inr [] => inl OSError
  | inr dirs => inr dirs
  end.

(** The tree [root] as a [FileSystem].  The listings are those of [root]
    itself: they are right for an output directory that is in [root] or is
    created outside the directories the script lists. *)
Definition file_system (root : node) : FileSystem :=
  {| glob := tree_glob root;
     isdir p := match at_path root p with Some (Dir _) => true | _ => false end;
     path_exists p := bool_decide (is_Some (at_path root p));
     open_read p := match at_path root p with Some (File t) => Some t | _ => None end;
     makedirs_outcome := tree_makedirs root |}.

(** A pattern directory [name] of the dataset with its occurrence files. *)
Definition pattern_dir (name : string) (csvs : list (string * string))
  : string * node :=
  (name, Dir [("occurrences", Dir [("csv", Dir (map (fun c => (c.1, File c.2)) csvs))])]%string).

(** A piece directory with its monophonic and polyphonic annotators. *)
Definition piece_dir (name : string) (mono poly : list (string * node))
  : string * node :=
  (name, Dir [("monophonic", Dir [("repeatedPatterns", Dir mono)]);
              ("polyphonic", Dir [("repeatedPatterns", Dir poly)])]%string).

Definition dataset (pieces : list (string * node)) : node :=
  Dir [("jku", Dir [("groundTruth", Dir pieces)])]%string.

End Tree.

(** ** Small datasets *)

Module Demo.
Import Tree.
Local Open Scope string_scope.

Definition world0 : world := {| made_dirs := []; files := ∅; saved := [] |}.

(** The monophonic annotator of the datasets below, and the first occurrence
    file of its pattern [A]. *)
Definition annotatorX : string :=
  "jku/groundTruth/bach/monophonic/repeatedPatterns/annotatorX".

Definition occ_A1 : string :=
  "jku/groundTruth/bach/monophonic/repeatedPatterns/annotatorX/A/occurrences/csv/occ1.csv".

(** One piece; a monophonic annotator with two patterns, the first with two
    occurrences, and the polyphonic annotator [bruhn] with one pattern. *)
Definition bach : node :=
  dataset
    [piece_dir "bach"
       [("annotatorX",
          Dir [pattern_dir "A" [("occ1.csv", "1.5,60,33,0.5,1"); ("occ2.csv", "3,62,34,0.25,2")];
               pattern_dir "B" [("occ1.csv", "7,48,28,1,0")];
               ("readme.txt", File "patterns of annotatorX")])]
       [("bruhn", Dir [pattern_dir "C" [("occ1.csv", "0,72,40,2,1")]])]].

(** As [bach], with a pattern directory [E] that has no occurrence file
    between [A] and [B]. *)
Definition gap : node :=
  dataset
    [piece_dir "bach"
       [("annotatorX",
          Dir [pattern_dir "A" [("occ1.csv", "1.5,60,33,0.5,1")];
               pattern_dir "E" [];
               pattern_dir "B" [("occ1.csv", "7,48,28,1,0")]])]
       [("bruhn", Dir [pattern_dir "C" [("occ1.csv", "0,72,40,2,1")]])]].

(** Two polyphonic annotators that are not in the allow-list, listed one
    after the other. *)
Definition strangers : node :=
  dataset
    [piece_dir "bach"
       [("annotatorX", Dir [pattern_dir "A" [("occ1.csv", "1.5,60,33,0.5,1")]])]
       [("unknownGuy", Dir [pattern_dir "U" [("occ1.csv", "2,50,30,1,1")]]);
        ("otherGuy", Dir [pattern_dir "V" [("occ1.csv", "4,55,32,1,1")]])]].

(** A row with four columns only. *)
Definition short_row : node :=
  dataset
    [piece_dir "bach"
       [("annotatorX", Dir [pattern_dir "A" [("occ1.csv", "1.5,60,33,0.5")]])]
       []].

(** The pattern lists of [bach] (monophonic, polyphonic) and their
    observations. *)
Definition bach_mono : list (list string) :=
  [ ["jku/groundTruth/bach/monophonic/repeatedPatterns/annotatorX/A/occurrences/csv/occ1.csv";
     "jku/groundTruth/bach/monophonic/repeatedPatterns/annotatorX/A/occurrences/csv/occ2.csv"];
    ["jku/groundTruth/bach/monophonic/repeatedPatterns/annotatorX/B/occurrences/csv/occ1.csv"] ].

Definition bach_poly : list (list string) :=
  [ ["jku/groundTruth/bach/polyphonic/repeatedPatterns/bruhn/C/occurrences/csv/occ1.csv"] ].

Definition bach_mono_obs : list Observation :=
  [ {| time := 1.5; duration := 0.5;
       value := {| midi_pitch := 60; morph_pitch := 33; staff := 1;
                   pattern_id := 1; occurrence_id := 1 |} |};
    {| time := 3; duration := 0.25;
       value := {| midi_pitch := 62; morph_pitch := 34; staff := 2;
                   pattern_id := 1; occurrence_id := 2 |} |};
    {| time := 7; duration := 1;
       value := {| midi_pitch := 48; morph_pitch := 28; staff := 0;
                   pattern_id := 2; occurrence_id := 1 |} |} ].

Definition bach_poly_obs : list Observation :=
  [ {| time := 0; duration := 2;
       value := {| midi_pitch := 72; morph_pitch := 40; staff := 1;
                   pattern_id := 1; occurrence_id := 1 |} |} ].

(** A piece with monophonic annotations only. *)
Definition mono_only : node :=
  dataset
    [piece_dir "bach"
       [("annotatorX", Dir [pattern_dir "A" [("occ1.csv", "1.5,60,33,0.5,1")]])]
       []].

(** A piece with polyphonic annotations only. *)
Definition poly_only : node :=
  dataset
    [piece_dir "bach"
       []
       [("bruhn", Dir [pattern_dir "C" [("occ1.csv", "0,72,40,2,1")]])]].

(** The first pattern directory has no occurrence file, the second has. *)
Definition empty_first : node :=
  dataset
    [piece_dir "bach"
       [("annotatorX",
          Dir [pattern_dir "E" [];
               pattern_dir "A" [("occ1.csv", "1.5,60,33,0.5,1")]])]
       [("bruhn", Dir [pattern_dir "C" [("occ1.csv", "0,72,40,2,1")]])]].

(** Two pieces, [mozart] listed before [bach]. *)
Definition two_pieces : node :=
  dataset
    [piece_dir "mozart"
       [("annotatorX", Dir [pattern_dir "M" [("occ1.csv", "2,50,30,1,3")]])]
       [("bruhn", Dir [pattern_dir "N" [("occ1.csv", "5,51,31,1,4")]])];
     piece_dir "bach"
       [("annotatorX", Dir [pattern_dir "A" [("occ1.csv", "1.5,60,33,0.5,1")]])]
       [("bruhn", Dir [pattern_dir "C" [("occ1.csv", "0,72,40,2,2")]])]].

(** Polyphonic annotators [bruhn], [unknownGuy], [tomCollins], in this
    order: the one outside the allow-list stands between two that are in
    it. *)
Definition guests : node :=
  dataset
    [piece_dir "bach"
       [("annotatorX", Dir [pattern_dir "A" [("occ1.csv", "1.5,60,33,0.5,1")]])]
       [("bruhn", Dir [pattern_dir "C" [("occ1.csv", "0,72,40,2,1")]]);
        ("unknownGuy", Dir [pattern_dir "U" [("occ1.csv", "2,50,30,1,1")]]);
        ("tomCollins", Dir [pattern_dir "T" [("occ1.csv", "4,55,32,1,1")]])]].

(** The dataset of [poly_only] beside two output directories that are there
    already. *)
Definition with_outputs : node :=
  Dir [("jku",
        Dir [("groundTruth",
              Dir [piece_dir "bach"
                     [("annotatorX",
                        Dir [pattern_dir "A" [("occ1.csv", "1.5,60,33,0.5,1")]])]
                     []])]);
       ("out1", Dir []);
       ("out2", Dir [])].

End Demo.

(** ** What the specification says the script computes *)

Section Specification.
Context `{FS : FileSystem} `{B : Builtins}.

(** The observation of one CSV row: column 0 is the onset time, column 1
    the MIDI pitch, column 2 the morphetic pitch, column 3 the duration and
    column 4 the staff.  [None] when a column is missing or does not
    convert. *)
Definition observation_of_row (pattern_n occ_n : Z) (fields : list string)
  : option Observation :=
  match fields with
  | c0 :: c1 :: c2 :: c3 :: c4 :: _ =>
      t ← py_float c0;
      midi ← py_float c1;
      morph ← py_float c2;
      d ← py_float c3;
      st ← py_int c4;
      Some {| time := t; duration := d;
              value := {| midi_pitch := midi; morph_pitch := morph;
                          staff := st; pattern_id := pattern_n;
                          occurrence_id := occ_n |} |}
  | _ => None
  end.

(** Everything [f] yields along [l], in the order of [l]; [f] is given the
    position of each element.  [None] when [f] fails somewhere. *)
Definition gather {A C} (f : nat -> A -> option (list C)) (l : list A)
  : option (list C) :=
  @concat C <$> mapM id (imap f l).

(** The rows of one occurrence file, in row order. *)
Definition observations_of_occurrence (pattern_n occ_n : Z) (occ_file : string)
  : option (list Observation) :=
  text ← open_read occ_file;
  mapM (observation_of_row pattern_n occ_n) (csv_reader text).

(** The occurrences of one pattern, in order; the occurrence at position
    [j] has [occurrence_id] [j + 1]. *)
Definition observations_of_pattern (pattern_n : Z) (pattern : list string)
  : option (list Observation) :=
  gather (fun j occ_file =>
            observations_of_occurrence pattern_n (Z.of_nat j + 1) occ_file)
         pattern.

(** The patterns of a document, in order; the pattern at position [i] has
    [pattern_id] [i + 1]. *)
Definition observations_of_patterns (patterns : list (list string))
  : option (list Observation) :=
  gather (fun i pattern => observations_of_pattern (Z.of_nat i + 1) pattern)
         patterns.

(** The document with the fixed metadata and the observations [obs]. *)
Definition document_of (obs : list Observation) : JAMS :=
  {| annotations :=
       [ {| namespace := namespace new_annotation;
            annotation_metadata := annotation_metadata new_annotation;
            data := obs |} ] |}.

(** [annot] with the observations [obs] added at the end. *)
Definition extend (annot : Annotation) (obs : list Observation) : Annotation :=
  {| namespace := namespace annot;
     annotation_metadata := annotation_metadata annot;
     data := data annot ++ obs |}.

(** The exceptions of a malformed row. *)
Definition parse_error (e : exn) : Prop := e = IndexError \/ e = ValueError.

(** The world after [doc] has been written under the name [name]. *)
Definition written (name : string) (doc : JAMS) (w : world) : world :=
  {| made_dirs := made_dirs w;
     files := <[name := doc]> (files w);
     saved := saved w ++ [(name, doc)] |}.

(** The pattern directories under a list of annotators, in listing order,
    and the occurrence files of a pattern directory. *)
Definition pattern_dirs (annotators : list string) : list string :=
  annotators ≫= (fun annotator =>
    filter (fun p => isdir p = true) (glob (path_join annotator ["*"%string]))).

Definition occurrences_of (pattern : string) : list string :=
  glob (path_join pattern ["occurrences"; "csv"; "*.csv"]%string).

(** The annotators the specification keeps: every monophonic one, and the
    polyphonic ones whose name is in the allow-list. *)
Definition spec_annotators (piece type : string) : list string :=
  let annotators := glob (path_join piece [type; "repeatedPatterns"; "*"]%string) in
  if String.eqb type "polyphonic"
  then filter (fun a => path_tail a ∈ valid_annotators) annotators
  else annotators.

(** What the filter loop of [process] leaves of a listing without
    repetitions: an annotator that is not in the allow-list is dropped, and
    the annotator listed right after it is kept without being tested. *)
Fixpoint skip_filter (annotators : list string) : list string :=
  match annotators with
  | [] => []
  | a :: rest =>
      if bool_decide (path_tail a ∉ valid_annotators)
      then match rest with
           | [] => []
           | b :: rest' => b :: skip_filter rest'
           end
      else a :: skip_filter rest
  end.

(** The pattern lists as the specification words them: one flat list per
    piece, the patterns of both annotation types concatenated. *)
Definition spec_all_patterns (pieces : list string) : list (list (list string)) :=
  map (fun piece =>
         get_gt_patterns (spec_annotators piece "monophonic")
         ++ get_gt_patterns (spec_annotators piece "polyphonic")) pieces.

(** The pattern lists of one piece as the script builds them: one per
    annotation type. *)
Definition patterns_of_piece (piece : string) : list (list (list string)) :=
  [get_gt_patterns (annotators_of piece "monophonic");
   get_gt_patterns (annotators_of piece "polyphonic")].

(** The body of the second loop of [process]. *)
Definition write_document (out_dir : string) (patterns : list (list string))
    (_ : unit) : M unit :=
  out_file ← lift (get_out_file patterns out_dir);
  parse_patterns patterns out_file.

(** The observations of every occurrence file under a list of annotators:
    the pattern directories in listing order, the pattern at position [i]
    with [pattern_id] [i + 1]; within each, the occurrence files in listing
    order, the file at position [j] with [occurrence_id] [j + 1]; within
    each, the rows in order. *)
Definition observations_under (annotators : list string)
  : option (list Observation) :=
  gather (fun i pattern =>
    gather (fun j occ_file =>
              observations_of_occurrence (Z.of_nat i + 1) (Z.of_nat j + 1) occ_file)
           (occurrences_of pattern))
    (pattern_dirs annotators).

(** A row with fewer than five columns, or with a column that does not
    convert: columns 0 to 3 to a float, column 4 to an integer. *)
Definition malformed (fields : list string) : Prop :=
  (length fields < 5)%nat
  \/ (exists k c, (k < 4)%nat /\ fields !! k = Some c /\ py_float c = None)
  \/ (exists c, fields !! 4%nat = Some c /\ py_int c = None).

(** Every occurrence file of [patterns] that cannot be opened allows
    [OSError] in [P]. *)
Definition opens_or_allowed (P : exn -> Prop) (patterns : list (list string))
  : Prop :=
  forall pattern occ_file,
    pattern ∈ patterns -> occ_file ∈ pattern ->
    open_read occ_file = None -> P OSError.

(** Every occurrence file of [patterns] can be opened. *)
Definition all_open (patterns : list (list string)) : Prop :=
  forall pattern occ_file,
    pattern ∈ patterns -> occ_file ∈ pattern -> is_Some (open_read occ_file).

(** [doc] is the document of the pattern list [patterns], for which an
    output file name can be derived in [out_dir]. *)
Definition document_for (out_dir : string) (patterns : list (list string))
    (doc : JAMS) : Prop :=
  (exists out_file, get_out_file patterns out_dir = inr out_file)
  /\ exists obs, observations_of_patterns patterns = Some obs
                 /\ doc = document_of obs.

(** What a loop body does to [(counter, annot)] at one element, against a
    function [f] that says which observations the element holds: it adds
    them and counts one up, or raises an exception in [P] and leaves the
    world as it was. *)
Definition counted_step {A} (P : exn -> Prop)
    (body : A -> Z * Annotation -> M (Z * Annotation))
    (f : Z -> A -> option (list Observation)) (x : A) : Prop :=
  forall n annot w,
    match f n x with
    | Some obs => body x (n, annot) w = (inr (n + 1, extend annot obs), w)
    | None => exists e, P e /\ body x (n, annot) w = (inl e, w)
    end.

(** The world after the first step of [process], which creates the output
    directory when it is not there, or the exception of that step. *)
Definition prepared (out_dir : string) (w : world) : result world :=
  if path_exists out_dir then inr w
  else match makedirs_outcome out_dir with
       | inl e => inl e
       | inr dirs => inr {| made_dirs := made_dirs w ++ dirs;
                            files := files w; saved := saved w |}
       end.

(** The output directory is there or can be created. *)
Definition out_dir_ready (out_dir : string) : Prop :=
  path_exists out_dir = true \/ exists dirs, makedirs_outcome out_dir = inr dirs.

(** The pieces with their annotation types, in the order [process] goes
    through them. *)
Definition piece_types (pieces : list string) : list (string * string) :=
  pieces ≫= (fun piece => [(piece, "monophonic"); (piece, "polyphonic")]%string).

(** [doc] is the document of the annotators the script keeps for a piece and
    type: it holds exactly the observations of every occurrence file under
    them, and an output file name can be derived for it in [out_dir]. *)
Definition document_of_annotators (out_dir : string) (pt : string * string)
    (doc : JAMS) : Prop :=
  (exists out_file,
     get_out_file (get_gt_patterns (annotators_of pt.1 pt.2)) out_dir
     = inr out_file)
  /\ exists obs, observations_under (annotators_of pt.1 pt.2) = Some obs
                 /\ doc = document_of obs.

(** An annotator path whose last component is in the allow-list. *)
Definition allow_listed (annotator : string) : Prop :=
  path_tail annotator ∈ valid_annotators.

(** No annotator outside the allow-list is listed right after another one
    outside it. *)
Definition no_strangers_in_a_row (annotators : list string) : Prop :=
  forall i a b,
    annotators !! i = Some a -> annotators !! S i = Some b ->
    ~ allow_listed a -> allow_listed b.

(** The rows [csv.reader] yields for an occurrence file (none when it cannot
    be opened), and the number of rows of all occurrence files of a pattern
    list. *)
Definition rows_of (occ_file : string) : list (list string) :=
  match open_read occ_file with
  | Some text => csv_reader text
  | None => []
  end.

Definition total_rows (patterns : list (list string)) : nat :=
  sum_list ((fun pattern =>
               sum_list ((fun occ_file => length (rows_of occ_file)) <$> pattern))
            <$> patterns).

(** [o] with its [pattern_id] moved up by [k]. *)
Definition renumber (k : Z) (o : Observation) : Observation :=
  {| time := time o; duration := duration o;
     value := {| midi_pitch := midi_pitch (value o);
                 morph_pitch := morph_pitch (value o);
                 staff := staff (value o);
                 pattern_id := pattern_id (value o) + k;
                 occurrence_id := occurrence_id (value o) |} |}.

(** Whether a string has a slash in it. *)
Definition has_slash (s : string) : bool :=
  existsb (Ascii.eqb slash) (list_ascii_of_string s).

(** A computation that leaves the world as it is and whose result does not
    depend on the world. *)
Definition reads_only {A} (m : M A) : Prop :=
  exists r, forall w, m w = (r, w).

(** Two worlds with the same files and the same history of saves. *)
Definition same_output (w1 w2 : world) : Prop :=
  files w1 = files w2 /\ saved w1 = saved w2.

End Specification.

(** * Theorems *)

(** ** The monad *)

Lemma bind_ok {A C} (m : M A) (k : A -> M C) w a w' :
  m w = (inr a, w') -> (m ≫= k) w = k a w'.
Proof. intros H. unfold mbind, M_bind, bind. by rewrite H. Qed.

Lemma bind_raise {A C} (m : M A) (k : A -> M C) w e w' :
  m w = (inl e, w') -> (m ≫= k) w = (inl e, w').
Proof. intros H. unfold mbind, M_bind, bind. by rewrite H. Qed.

Lemma for_each_app {A S} (xs ys : list A) (body : A -> S -> M S) s w :
  for_each (xs ++ ys) body s w =
  (for_each xs body s ≫= for_each ys body) w.
Proof.
  revert s w. induction xs as [|x xs IH]; intros s w; simpl.
  - reflexivity.
  - unfold mbind, M_bind, bind. destruct (body x s w) as [[e|s'] w']; [done|].
    apply IH.
Qed.

(** ** Indexing *)

Lemma getitem_lookup {A} (l : list A) (i : nat) :
  getitem l (Z.of_nat i) =
  match l !! i with Some x => inr x | None => inl IndexError end.
Proof.
  unfold getitem. cbv zeta.
  assert ((Z.of_nat i <? 0) = false) as E by (apply Z.ltb_ge; lia).
  rewrite E, Nat2Z.id. simpl. rewrite E. simpl.
  destruct (Z.leb_spec (Z.of_nat (length l)) (Z.of_nat i)) as [Hge|Hlt].
  - rewrite lookup_ge_None_2 by lia. reflexivity.
  - reflexivity.
Qed.

(** ** Gathering along a list *)

Section Gather.
Context {A C : Type}.
Implicit Types (f g : nat -> A -> option (list C)) (l : list A).

Lemma gather_nil f : gather f [] = Some [].
Proof. reflexivity. Qed.

Lemma gather_cons f x l :
  gather f (x :: l) =
  o ← f 0%nat x; os ← gather (fun j => f (S j)) l; Some (o ++ os).
Proof.
  unfold gather. simpl. destruct (f 0%nat x) as [o|]; simpl; [|done].
  change (f ∘ S) with (fun j => f (S j)).
  destruct (mapM id (imap (fun j => f (S j)) l)); done.
Qed.

Lemma gather_ext f g l :
  (forall i x, l !! i = Some x -> f i x = g i x) -> gather f l = gather g l.
Proof. intros H. unfold gather. by rewrite (imap_ext f g l H). Qed.

(** A gathered list splits into one block per element. *)
Lemma gather_Some f l k :
  gather f l = Some k ->
  exists blocks, k = concat blocks /\ length blocks = length l /\
    forall i x, l !! i = Some x ->
      exists b, blocks !! i = Some b /\ f i x = Some b.
Proof.
  revert f k. induction l as [|x l IH]; intros f k.
  - rewrite gather_nil. intros [= <-]. exists []. by repeat split.
  - rewrite gather_cons. destruct (f 0%nat x) as [o|] eqn:Ho; simpl; [|done].
    destruct (gather (fun j => f (S j)) l) as [os|] eqn:Hos; simpl; [|done].
    intros [= <-]. destruct (IH _ _ Hos) as (bs & -> & Hlen & Hbs).
    exists (o :: bs). repeat split; simpl; [by rewrite Hlen|].
    intros [|i] y Hy; simpl in *.
    + injection Hy as <-. eauto.
    + by apply Hbs.
Qed.

Lemma gather_None f l :
  gather f l = None -> exists i x, l !! i = Some x /\ f i x = None.
Proof.
  revert f. induction l as [|x l IH]; intros f.
  - by rewrite gather_nil.
  - rewrite gather_cons. destruct (f 0%nat x) as [o|] eqn:Ho; simpl.
    + destruct (gather (fun j => f (S j)) l) as [os|] eqn:Hos; simpl; [done|].
      intros _. destruct (IH _ Hos) as (i & y & Hy & Hf).
      by exists (S i), y.
    + intros _. by exists 0%nat, x.
Qed.

Lemma gather_is_None f l i x :
  l !! i = Some x -> f i x = None -> gather f l = None.
Proof.
  intros Hx Hf. destruct (gather f l) as [k|] eqn:Hk; [|done].
  destruct (gather_Some _ _ _ Hk) as (bs & _ & _ & Hbs).
  destruct (Hbs _ _ Hx) as (b & _ & Hb). congruence.
Qed.

End Gather.

(** ** The loops of [parse_patterns] *)

Lemma extend_nil annot : extend annot [] = annot.
Proof. destruct annot. unfold extend. simpl. by rewrite app_nil_r. Qed.

Lemma extend_extend annot obs1 obs2 :
  extend (extend annot obs1) obs2 = extend annot (obs1 ++ obs2).
Proof. unfold extend. simpl. by rewrite app_assoc. Qed.

Lemma observation_ids `{B : Builtins} pattern_n occ_n fields o :
  observation_of_row pattern_n occ_n fields = Some o ->
  pattern_id (value o) = pattern_n /\ occurrence_id (value o) = occ_n.
Proof.
  unfold observation_of_row.
  destruct fields as [|c0 [|c1 [|c2 [|c3 [|c4 rest]]]]]; try done.
  destruct (py_float c0), (py_float c1), (py_float c2), (py_float c3),
    (py_int c4); simpl; try done.
  by intros [= <-].
Qed.

Lemma counted_loop {A} (P : exn -> Prop) body f (l : list A) :
  (forall x, x ∈ l -> counted_step P body f x) ->
  forall n annot w,
    match gather (fun j x => f (n + Z.of_nat j) x) l with
    | Some obs =>
        for_each l body (n, annot) w
        = (inr (n + Z.of_nat (length l), extend annot obs), w)
    | None => exists e, P e /\ for_each l body (n, annot) w = (inl e, w)
    end.
Proof.
  induction l as [|x l IH]; intros Hstep n annot w.
  - rewrite gather_nil. simpl. rewrite extend_nil, Z.add_0_r. reflexivity.
  - rewrite gather_cons. simpl for_each.
    pose proof (Hstep x ltac:(left) n annot w) as Hx.
    rewrite Z.add_0_r. destruct (f n x) as [o|]; simpl.
    + rewrite (bind_ok _ _ _ _ _ Hx).
      specialize (IH (fun y Hy => Hstep y ltac:(by right)) (n + 1) (extend annot o) w).
      rewrite (gather_ext (fun j => f (n + Z.of_nat (S j)))
                 (fun j => f (n + 1 + Z.of_nat j))) by (intros; f_equal; lia).
      destruct (gather _ l) as [os|]; simpl.
      * rewrite IH, extend_extend. do 3 f_equal. simpl length. lia.
      * exact IH.
    + destruct Hx as (e & He & Hx). exists e. split; [done|].
      by rewrite (bind_raise _ _ _ _ _ Hx).
Qed.

Section Loops.
Context `{FS : FileSystem} `{B : Builtins}.
Variable P : exn -> Prop.
Hypothesis P_index : P IndexError.
Hypothesis P_value : P ValueError.

Lemma row_body_spec pattern_n occ_n fields annot w :
  match observation_of_row pattern_n occ_n fields with
  | Some o => row_body pattern_n occ_n fields annot w = (inr (extend annot [o]), w)
  | None => exists e, P e /\ row_body pattern_n occ_n fields annot w = (inl e, w)
  end.
Proof using P_index P_value.
  unfold row_body, observation_of_row.
  change 1 with (Z.of_nat 1). change 2 with (Z.of_nat 2).
  change 3 with (Z.of_nat 3). change 4 with (Z.of_nat 4).
  change 0 with (Z.of_nat 0). rewrite !getitem_lookup.
  unfold mbind, M_bind, bind, lift, convert, mret, M_ret, ret, raise, option_bind.
  destruct fields as [|c0 [|c1 [|c2 [|c3 [|c4 rest]]]]]; simpl;
    repeat match goal with
      | |- context [py_float ?c] => destruct (py_float c); simpl
      | |- context [py_int ?c] => destruct (py_int c); simpl
      end; eauto.
Qed.

Lemma rows_loop_spec pattern_n occ_n rows annot w :
  match mapM (observation_of_row pattern_n occ_n) rows with
  | Some obs =>
      for_each rows (row_body pattern_n occ_n) annot w = (inr (extend annot obs), w)
  | None =>
      exists e, P e /\ for_each rows (row_body pattern_n occ_n) annot w = (inl e, w)
  end.
Proof using P_index P_value.
  revert annot. induction rows as [|fields rows IH]; intros annot; simpl.
  - by rewrite extend_nil.
  - pose proof (row_body_spec pattern_n occ_n fields annot w) as Hrow.
    destruct (observation_of_row pattern_n occ_n fields) as [o|]; simpl.
    + rewrite (bind_ok _ _ _ _ _ Hrow). specialize (IH (extend annot [o])).
      destruct (mapM _ rows) as [obs|]; simpl.
      * by rewrite IH, extend_extend.
      * exact IH.
    + destruct Hrow as (e & He & Hrow). exists e.
      by rewrite (bind_raise _ _ _ _ _ Hrow).
Qed.

Lemma occ_body_spec pattern_n occ_file :
  (open_read occ_file = None -> P OSError) ->
  counted_step P (occ_body pattern_n)
    (observations_of_occurrence pattern_n) occ_file.
Proof using P_index P_value.
  intros Hopen occ_n annot w.
  unfold observations_of_occurrence, occ_body, open_csv.
  destruct (open_read occ_file) as [text|]; simpl.
  - pose proof (rows_loop_spec pattern_n occ_n (csv_reader text) annot w) as Hrows.
    destruct (mapM _ (csv_reader text)) as [obs|].
    + unfold mbind at 1, M_bind, bind. simpl.
      by rewrite (bind_ok _ _ _ _ _ Hrows).
    + destruct Hrows as (e & He & Hrows). exists e. split; [done|].
      unfold mbind at 1, M_bind, bind. simpl.
      by rewrite (bind_raise _ _ _ _ _ Hrows).
  - exists OSError. split; [by apply Hopen|done].
Qed.

Lemma pattern_body_spec pattern :
  (forall occ_file, occ_file ∈ pattern -> open_read occ_file = None -> P OSError) ->
  counted_step P (fun pattern => pattern_body pattern)
    observations_of_pattern pattern.
Proof using P_index P_value.
  intros Hopen pattern_n annot w.
  unfold observations_of_pattern, pattern_body.
  pose proof (counted_loop P (occ_body pattern_n)
                (observations_of_occurrence pattern_n) pattern
                (fun occ Hocc => occ_body_spec pattern_n occ (Hopen occ Hocc))
                1 annot w) as Hloop.
  rewrite (gather_ext _ (fun j => observations_of_occurrence pattern_n (1 + Z.of_nat j)))
    by (intros; f_equal; lia).
  destruct (gather _ pattern) as [obs|].
  - by rewrite (bind_ok _ _ _ _ _ Hloop).
  - destruct Hloop as (e & He & Hloop). exists e.
    by rewrite (bind_raise _ _ _ _ _ Hloop).
Qed.

(** [parse_patterns] against the specification: it writes the document of
    the observations, or raises and writes nothing. *)
Lemma parse_patterns_spec patterns out_file w :
  opens_or_allowed P patterns ->
  match observations_of_patterns patterns with
  | Some obs =>
      parse_patterns patterns out_file w
      = (inr tt, written "test.jams" (document_of obs) w)
  | None => exists e, P e /\ parse_patterns patterns out_file w = (inl e, w)
  end.
Proof using P_index P_value.
  intros Hopen. unfold observations_of_patterns, parse_patterns.
  pose proof (counted_loop P (fun pattern => pattern_body pattern)
                observations_of_pattern patterns
                (fun p Hp => pattern_body_spec p (fun occ Hocc => Hopen p occ Hp Hocc))
                1 new_annotation w) as Hloop.
  rewrite (gather_ext _ (fun i => observations_of_pattern (1 + Z.of_nat i)))
    by (intros; f_equal; lia).
  destruct (gather _ patterns) as [obs|].
  - by rewrite (bind_ok _ _ _ _ _ Hloop).
  - destruct Hloop as (e & He & Hloop). exists e.
    by rewrite (bind_raise _ _ _ _ _ Hloop).
Qed.

End Loops.

(** ** [get_gt_patterns] and the main loop of [process] in closed form *)

Lemma foldl_snoc {A} (acc l : list A) :
  foldl (fun O x => O ++ [x]) acc l = acc ++ l.
Proof.
  revert acc. induction l as [|x l IH]; intros acc; simpl.
  - by rewrite app_nil_r.
  - by rewrite IH, <- app_assoc.
Qed.

Section Listing.
Context `{FS : FileSystem}.

Lemma get_gt_patterns_spec annotators :
  get_gt_patterns annotators = occurrences_of <$> pattern_dirs annotators.
Proof.
  unfold get_gt_patterns, pattern_dirs.
  enough (forall P0,
    foldl (fun P annotator =>
      foldl (fun P pattern =>
        if isdir pattern
        then P ++ [foldl (fun O occurrence => O ++ [occurrence]) []
                     (glob (path_join pattern ["occurrences"; "csv"; "*.csv"]%string))]
        else P) P (glob (path_join annotator ["*"%string]))) P0 annotators
    = P0 ++ (occurrences_of <$>
             (annotators ≫= fun annotator =>
                filter (fun p => isdir p = true)
                       (glob (path_join annotator ["*"%string])))))
    as H by apply (H []).
  induction annotators as [|a annotators IH]; intros P0; simpl.
  - by rewrite app_nil_r.
  - rewrite IH, fmap_app, app_assoc. f_equal.
    generalize (glob (path_join a ["*"%string])). clear. intros patterns.
    revert P0. induction patterns as [|p patterns IH]; intros P0; simpl.
    + by rewrite app_nil_r.
    + rewrite IH, filter_cons. destruct (isdir p) eqn:Hp.
      * rewrite decide_True by done. rewrite foldl_snoc. simpl.
        by rewrite <- app_assoc.
      * rewrite decide_False by done. done.
Qed.

Lemma collect_patterns_spec pieces :
  collect_patterns pieces = pieces ≫= patterns_of_piece.
Proof.
  unfold collect_patterns.
  enough (forall acc,
    foldl (fun all_patterns piece =>
      foldl (fun all_patterns type =>
        all_patterns ++ [get_gt_patterns (annotators_of piece type)])
        all_patterns types) acc pieces
    = acc ++ (pieces ≫= patterns_of_piece)) as H by apply (H []).
  induction pieces as [|piece pieces IH]; intros acc; simpl.
  - by rewrite app_nil_r.
  - rewrite IH. by rewrite <- !app_assoc.
Qed.

Lemma collect_patterns_length pieces :
  length (collect_patterns pieces) = (2 * length pieces)%nat.
Proof.
  rewrite collect_patterns_spec.
  induction pieces as [|piece pieces IH]; [done|].
  rewrite bind_cons, length_app, IH. simpl. lia.
Qed.

(** The filter loop needs no more rounds than the list is long. *)
Lemma remove_invalid_length fuel i annotators :
  (length (remove_invalid fuel i annotators) <= length annotators)%nat.
Proof.
  revert i annotators. induction fuel as [|fuel IH]; intros i annotators; simpl.
  - done.
  - destruct (annotators !! i) as [a|]; [|done].
    case_bool_decide; [|apply IH].
    etrans; [apply IH|].
    clear. induction annotators as [|y l IHl]; simpl; [done|].
    case_decide; simpl; lia.
Qed.

Lemma list_remove_length (x : string) (l : list string) :
  x ∈ l -> length l = S (length (list_remove x l)).
Proof.
  induction l as [|y l IH]; simpl.
  - by intros ?%elem_of_nil.
  - intros Hx. case_decide; [done|]. simpl. f_equal. apply IH.
    apply elem_of_cons in Hx as [->|]; done.
Qed.

Lemma remove_invalid_fuel fuel fuel' i annotators :
  (length annotators <= i + fuel)%nat -> (fuel <= fuel')%nat ->
  remove_invalid fuel' i annotators = remove_invalid fuel i annotators.
Proof.
  revert fuel' i annotators.
  induction fuel as [|fuel IH]; intros fuel' i annotators Hlen Hle.
  - destruct fuel'; simpl; [done|].
    rewrite lookup_ge_None_2 by lia. done.
  - destruct fuel' as [|fuel']; [lia|]. simpl.
    destruct (annotators !! i) as [a|] eqn:Ha; [|done].
    apply IH; [|lia].
    case_bool_decide; [|lia].
    pose proof (list_remove_length a annotators
                  (proj2 (list_elem_of_lookup _ _) (ex_intro _ i Ha))). lia.
Qed.

Lemma remove_invalid_past_end fuel i annotators :
  (length annotators <= i)%nat -> remove_invalid fuel i annotators = annotators.
Proof.
  intros Hlen. destruct fuel; simpl; [done|].
  by rewrite lookup_ge_None_2.
Qed.

Lemma list_remove_middle (a : string) (pre rest : list string) :
  a ∉ pre -> list_remove a (pre ++ a :: rest) = pre ++ rest.
Proof.
  induction pre as [|y pre IH]; intros Ha; simpl.
  - by rewrite decide_True.
  - apply not_elem_of_cons in Ha as [Hne Ha].
    rewrite decide_False by done. by rewrite IH.
Qed.

(** The filter loop on a listing without repetitions, from position
    [length pre] on: what is before the position stays, and what is from the
    position on is left as [skip_filter] says. *)
Lemma remove_invalid_skip fuel pre suf :
  NoDup (pre ++ suf) -> (length suf <= fuel)%nat ->
  remove_invalid fuel (length pre) (pre ++ suf) = pre ++ skip_filter suf.
Proof.
  revert pre suf. induction fuel as [|fuel IH]; intros pre suf Hnd Hlen.
  - destruct suf; [done|simpl in Hlen; lia].
  - destruct suf as [|a rest]; simpl.
    { rewrite lookup_ge_None_2; [done|]. rewrite length_app. simpl. lia. }
    rewrite list_lookup_middle by done.
    assert (a ∉ pre) as Ha.
    { apply NoDup_app in Hnd as (_ & Hdisj & _). intros Hin.
      apply (Hdisj _ Hin). by left. }
    simpl in Hlen. case_bool_decide.
    + rewrite list_remove_middle by done.
      assert (NoDup (pre ++ rest)) as Hnd'.
      { apply NoDup_app in Hnd as (Hpre & Hdisj & Hsuf).
        apply NoDup_app. split; [done|]. split.
        - intros x Hx Hr. apply (Hdisj _ Hx). by right.
        - by apply NoDup_cons in Hsuf as [_ ?]. }
      destruct rest as [|b rest'].
      * apply remove_invalid_past_end. rewrite length_app. simpl. lia.
      * replace (S (length pre)) with (length (pre ++ [b]))
          by (rewrite length_app; simpl; lia).
        rewrite (cons_middle b pre rest'), app_assoc.
        rewrite IH; [by rewrite <- app_assoc| |simpl in Hlen; lia].
        by rewrite <- app_assoc.
    + replace (S (length pre)) with (length (pre ++ [a]))
        by (rewrite length_app; simpl; lia).
      rewrite (cons_middle a pre rest), app_assoc.
      rewrite IH; [by rewrite <- app_assoc| |lia].
      by rewrite <- app_assoc.
Qed.

(** X2. For a listing of the polyphonic annotators without repetition, the
    loop that removes while it iterates leaves exactly what [skip_filter]
    says: an annotator outside the allow-list is dropped when the loop looks
    at it, and then the annotator listed right after it is kept without being
    looked at. *)
Lemma annotators_of_polyphonic piece :
  NoDup (glob (path_join piece ["polyphonic"; "repeatedPatterns"; "*"]%string)) ->
  annotators_of piece "polyphonic"
  = skip_filter (glob (path_join piece ["polyphonic"; "repeatedPatterns"; "*"]%string)).
Proof.
  intros Hnd. unfold annotators_of. simpl.
  apply (remove_invalid_skip _ [] _ Hnd). done.
Qed.

End Listing.

(** ** The second loop of [process] *)

Section Writing.
Context `{FS : FileSystem} `{B : Builtins}.

(** One round: an exception and nothing written, or the document of the
    pattern list written to [test.jams]. *)
Lemma write_document_spec out_dir patterns w :
  (exists e, write_document out_dir patterns tt w = (inl e, w))
  \/ (exists doc, document_for out_dir patterns doc
                  /\ write_document out_dir patterns tt w
                     = (inr tt, written "test.jams" doc w)).
Proof.
  unfold write_document, document_for.
  destruct (get_out_file patterns out_dir) as [e|out_file] eqn:Hout.
  - left. by exists e.
  - pose proof (parse_patterns_spec (fun _ => True) I I patterns out_file w
                  (fun _ _ _ _ _ => I)) as Hparse.
    destruct (observations_of_patterns patterns) as [obs|].
    + right. exists (document_of obs). split; [by eauto|].
      unfold mbind, M_bind, bind, lift. exact Hparse.
    + left. destruct Hparse as (e & _ & Hparse). exists e.
      unfold mbind, M_bind, bind, lift. exact Hparse.
Qed.

(** The world after the documents [docs] were written one after the other. *)
Lemma write_loop_ok out_dir all_patterns w w' :
  for_each all_patterns (write_document out_dir) tt w = (inr tt, w') ->
  exists docs,
    Forall2 (document_for out_dir) all_patterns docs
    /\ w' = foldl (fun w doc => written "test.jams" doc w) w docs.
Proof.
  revert w. induction all_patterns as [|patterns all_patterns IH]; intros w; simpl.
  - intros [= <-]. exists []. by split.
  - destruct (write_document_spec out_dir patterns w)
      as [(e & Hw)|(doc & Hdoc & Hw)].
    + by rewrite (bind_raise _ _ _ _ _ Hw).
    + rewrite (bind_ok _ _ _ _ _ Hw). intros Hrest.
      destruct (IH _ Hrest) as (docs & Hdocs & ->).
      exists (doc :: docs). split; [by constructor|done].
Qed.

(** A pattern list whose round raises stops the loop there, with the world
    as it was when its round began. *)
Lemma write_loop_abort out_dir patterns rest w e :
  write_document out_dir patterns tt w = (inl e, w) ->
  for_each (patterns :: rest) (write_document out_dir) tt w = (inl e, w).
Proof. intros Hw. simpl. by rewrite (bind_raise _ _ _ _ _ Hw). Qed.

Lemma written_fold_saved (docs : list JAMS) w :
  saved (foldl (fun w doc => written "test.jams" doc w) w docs)
  = saved w ++ ((fun doc => ("test.jams"%string, doc)) <$> docs).
Proof.
  revert w. induction docs as [|doc docs IH]; intros w; simpl.
  - by rewrite app_nil_r.
  - rewrite IH. simpl. by rewrite <- app_assoc.
Qed.

Lemma written_fold_files (docs : list JAMS) w :
  files (foldl (fun w doc => written "test.jams" doc w) w docs)
  = match last docs with
    | Some doc => <["test.jams"%string := doc]> (files w)
    | None => files w
    end.
Proof.
  revert w. induction docs as [|doc docs IH]; intros w; simpl; [done|].
  rewrite IH. simpl. destruct docs as [|doc' docs]; simpl; [done|].
  destruct (last (doc' :: docs)) eqn:Hlast.
  - by rewrite insert_insert_eq.
  - by apply last_None in Hlast.
Qed.

(** [process] is the second loop run on what the first loop collected, after
    the output directory was created if it was not there; an exception of
    that first step ends the run. *)
Lemma process_unfold jku_dir out_dir w :
  process jku_dir out_dir w
  = match prepared out_dir w with
    | inl e => (inl e, w)
    | inr w0 =>
        for_each
          (collect_patterns (glob (path_join jku_dir ["groundTruth"; "*"]%string)))
          (write_document out_dir) tt w0
    end.
Proof.
  unfold process, prepared. destruct (path_exists out_dir); [reflexivity|].
  simpl. unfold mbind, M_bind, bind, makedirs.
  by destruct (makedirs_outcome out_dir).
Qed.

Lemma prepared_output out_dir w w0 :
  prepared out_dir w = inr w0 -> files w0 = files w /\ saved w0 = saved w.
Proof.
  unfold prepared. destruct (path_exists out_dir); [by intros [= <-]|].
  destruct (makedirs_outcome out_dir); [done|]. by intros [= <-].
Qed.

Lemma prepared_ready out_dir w :
  out_dir_ready out_dir <-> exists w0, prepared out_dir w = inr w0.
Proof.
  unfold out_dir_ready, prepared. destruct (path_exists out_dir).
  - split; [by eexists|by left].
  - destruct (makedirs_outcome out_dir) as [e|dirs].
    + split; [intros [|[? ?]]; done|intros [? ?]; done].
    + split; [by eexists|right; by eexists].
Qed.

End Writing.

(** ** The observations of a document, by pattern and occurrence *)

Lemma gather_fmap {A A' C} (f : nat -> A' -> option (list C)) (g : A -> A')
    (l : list A) :
  gather f (g <$> l) = gather (fun i x => f i (g x)) l.
Proof. unfold gather. by rewrite imap_fmap. Qed.

Section Documents.
Context `{FS : FileSystem} `{B : Builtins}.

Lemma observations_under_patterns annotators :
  observations_of_patterns (get_gt_patterns annotators)
  = observations_under annotators.
Proof.
  rewrite get_gt_patterns_spec. unfold observations_of_patterns.
  by rewrite gather_fmap.
Qed.

(** A successful [parse_patterns] wrote the document of the specification. *)
Lemma parse_patterns_ok_inv patterns out_file w w' :
  parse_patterns patterns out_file w = (inr tt, w') ->
  exists obs, observations_of_patterns patterns = Some obs
              /\ w' = written "test.jams" (document_of obs) w.
Proof.
  intros Hrun.
  pose proof (parse_patterns_spec (fun _ => True) I I patterns out_file w
                (fun _ _ _ _ _ => I)) as Hspec.
  destruct (observations_of_patterns patterns) as [obs|].
  - exists obs. split; [done|]. congruence.
  - destruct Hspec as (e & _ & Hspec). congruence.
Qed.

Lemma occurrence_ids pattern_n occ_n occ_file os o :
  observations_of_occurrence pattern_n occ_n occ_file = Some os ->
  o ∈ os ->
  pattern_id (value o) = pattern_n /\ occurrence_id (value o) = occ_n.
Proof.
  unfold observations_of_occurrence.
  destruct (open_read occ_file) as [text|]; simpl; [|done].
  intros Hrows%mapM_Some_1 Ho.
  apply list_elem_of_lookup in Ho as [k Hk].
  destruct (Forall2_lookup_r _ _ _ _ _ Hrows Hk) as (fields & _ & Hfields).
  by apply observation_ids in Hfields.
Qed.

(** The observations of a pattern split into one part per occurrence file,
    and the part at position [j] carries [occurrence_id] [j + 1]. *)
Lemma pattern_parts pattern_n pattern block :
  observations_of_pattern pattern_n pattern = Some block ->
  exists parts,
    block = concat parts /\ length parts = length pattern /\
    forall j part o, parts !! j = Some part -> o ∈ part ->
      pattern_id (value o) = pattern_n
      /\ occurrence_id (value o) = Z.of_nat j + 1.
Proof.
  intros (parts & -> & Hlen & Hparts)%gather_Some.
  exists parts. split; [done|]. split; [done|].
  intros j part o Hpart Ho.
  destruct (lookup_lt_is_Some_2 pattern j) as [occ Hocc].
  { rewrite <- Hlen. by eapply lookup_lt_Some. }
  destruct (Hparts _ _ Hocc) as (part' & Hpart' & Hobs).
  assert (part' = part) as -> by congruence.
  exact (occurrence_ids _ _ _ _ _ Hobs Ho).
Qed.

(** The observations of a document split into one block per pattern, and the
    block at position [i] is the observations of that pattern with
    [pattern_id] [i + 1]. *)
Lemma patterns_blocks patterns obs :
  observations_of_patterns patterns = Some obs ->
  exists blocks,
    obs = concat blocks /\ length blocks = length patterns /\
    forall i pattern block,
      patterns !! i = Some pattern -> blocks !! i = Some block ->
      observations_of_pattern (Z.of_nat i + 1) pattern = Some block.
Proof.
  intros (blocks & -> & Hlen & Hblocks)%gather_Some.
  exists blocks. repeat split; [done|].
  intros i pattern block Hp Hb.
  destruct (Hblocks _ _ Hp) as (b & Hb' & Hobs). congruence.
Qed.

End Documents.

(** ** The filter loop never drops an allow-listed annotator *)

Lemma list_remove_sublist (x : string) (l : list string) :
  list_remove x l `sublist_of` l.
Proof.
  induction l as [|y l IH]; simpl; [done|].
  case_decide; [by apply sublist_cons|by apply sublist_skip].
Qed.

Lemma filter_list_remove (P : string -> Prop) `{!forall x, Decision (P x)}
    (x : string) (l : list string) :
  ~ P x -> filter P (list_remove x l) = filter P l.
Proof.
  intros Hx. induction l as [|y l IH]; simpl; [done|].
  case_decide as Hy.
  - subst y. by rewrite filter_cons_False.
  - rewrite !filter_cons, IH. done.
Qed.

Lemma remove_invalid_sublist fuel i annotators :
  remove_invalid fuel i annotators `sublist_of` annotators.
Proof.
  revert i annotators. induction fuel as [|fuel IH]; intros i annotators; simpl.
  - done.
  - destruct (annotators !! i) as [a|]; [|done].
    case_bool_decide; [|apply IH].
    etrans; [apply IH|apply list_remove_sublist].
Qed.

Lemma remove_invalid_filter fuel i annotators :
  filter (fun a => path_tail a ∈ valid_annotators)
         (remove_invalid fuel i annotators)
  = filter (fun a => path_tail a ∈ valid_annotators) annotators.
Proof.
  revert i annotators. induction fuel as [|fuel IH]; intros i annotators; simpl.
  - done.
  - destruct (annotators !! i) as [a|]; [|done].
    case_bool_decide as Ha; [|apply IH].
    rewrite IH. by apply filter_list_remove.
Qed.

(** ** A successful run of [process] *)

Section Runs.
Context `{FS : FileSystem} `{B : Builtins}.

Lemma collect_patterns_piece_types pieces :
  collect_patterns pieces
  = (fun pt => get_gt_patterns (annotators_of pt.1 pt.2)) <$> piece_types pieces.
Proof.
  rewrite collect_patterns_spec. unfold piece_types.
  induction pieces as [|piece pieces IH]; [done|].
  by rewrite !bind_cons, fmap_app, IH.
Qed.

Lemma piece_types_length pieces :
  length (piece_types pieces) = (2 * length pieces)%nat.
Proof.
  unfold piece_types. induction pieces as [|piece pieces IH]; [done|].
  rewrite bind_cons, length_app, IH. simpl. lia.
Qed.

Lemma piece_types_snoc pieces piece :
  piece_types (pieces ++ [piece])
  = piece_types pieces ++ [(piece, "monophonic"); (piece, "polyphonic")]%string.
Proof. unfold piece_types. by rewrite bind_app. Qed.

Lemma document_for_annotators out_dir pt doc :
  document_for out_dir (get_gt_patterns (annotators_of pt.1 pt.2)) doc
  <-> document_of_annotators out_dir pt doc.
Proof.
  unfold document_for, document_of_annotators.
  by rewrite observations_under_patterns.
Qed.

(** A run that returned normally wrote, after the first step, the document
    of every piece and type, in order. *)
Lemma process_ok_inv jku_dir out_dir w w' :
  process jku_dir out_dir w = (inr tt, w') ->
  exists w0 docs,
    prepared out_dir w = inr w0
    /\ Forall2 (document_of_annotators out_dir)
         (piece_types (glob (path_join jku_dir ["groundTruth"; "*"]%string)))
         docs
    /\ w' = foldl (fun w doc => written "test.jams" doc w) w0 docs.
Proof.
  rewrite process_unfold.
  destruct (prepared out_dir w) as [e|w0]; [done|].
  intros (docs & Hdocs & ->)%write_loop_ok.
  exists w0, docs. split; [done|]. split; [|done].
  rewrite collect_patterns_piece_types in Hdocs.
  apply (proj1 (Forall2_fmap_l _ _ _ _)) in Hdocs.
  eapply Forall2_impl; [exact Hdocs|].
  intros pt doc Hdoc. by apply document_for_annotators.
Qed.

End Runs.

(** * The claims *)

(** ** C1: what a document holds *)

(** [parse_patterns] on the patterns of a list of annotators succeeds
    exactly when every occurrence file under them opens and every row of it
    converts, and the document it then writes holds exactly the observations
    of those files: pattern directories in listing order, within each the
    occurrence files in listing order, within each the rows in order. *)
Lemma parse_patterns_under_annotators `{FS : FileSystem} `{B : Builtins}
    (annotators : list string) (out_file : string) (w w' : world) :
  parse_patterns (get_gt_patterns annotators) out_file w = (inr tt, w')
  <-> exists obs, observations_under annotators = Some obs
                  /\ w' = written "test.jams" (document_of obs) w.
Proof.
  rewrite <- observations_under_patterns. split.
  - apply parse_patterns_ok_inv.
  - intros (obs & Hobs & ->).
    pose proof (parse_patterns_spec (fun _ => True) I I
                  (get_gt_patterns annotators) out_file w
                  (fun _ _ _ _ _ => I)) as Hspec.
    by rewrite Hobs in Hspec.
Qed.




(** ** C5: the ids are the positions, counted from one *)

(** The observations of a pattern split into one part per occurrence file,
    and the part at position [j] is the rows of that file turned into
    observations with [occurrence_id] [j + 1], one per row and in row
    order. *)
Lemma pattern_parts_rows `{FS : FileSystem} `{B : Builtins}
    pattern_n pattern block :
  observations_of_pattern pattern_n pattern = Some block ->
  exists parts,
    block = concat parts /\ length parts = length pattern /\
    forall j occ_file part,
      pattern !! j = Some occ_file -> parts !! j = Some part ->
      Forall2 (fun fields o =>
                 observation_of_row pattern_n (Z.of_nat j + 1) fields = Some o)
              (rows_of occ_file) part.
Proof.
  intros (parts & -> & Hlen & Hparts)%gather_Some.
  exists parts. split; [done|]. split; [done|].
  intros j occ_file part Hocc Hpart.
  destruct (Hparts _ _ Hocc) as (part' & Hpart' & Hobs).
  assert (part' = part) as -> by congruence.
  revert Hobs. unfold observations_of_occurrence, rows_of.
  destruct (open_read occ_file) as [text|]; simpl; [|done].
  apply mapM_Some_1.
Qed.

(** C5. In a document [parse_patterns] wrote, the observations split into
    one block per pattern, in pattern order, and each block into one part per
    occurrence file, in occurrence order; the part of an occurrence file has
    exactly one observation per row of that file, in row order.  For the
    pattern at position [i] (from 0) and its occurrence file at position [j]
    these observations are the rows of the file with [pattern_id] [i + 1] and
    [occurrence_id] [j + 1].  So both ids start at 1 and go up by one with
    each pattern, respectively each occurrence file, and [occurrence_id]
    starts again at 1 in every pattern. *)
Theorem ids_count_positions_from_one `{FS : FileSystem} `{B : Builtins}
    (patterns : list (list string)) (out_file : string) (w w' : world) :
  parse_patterns patterns out_file w = (inr tt, w') ->
  exists blocks : list (list Observation),
    w' = written "test.jams" (document_of (concat blocks)) w
    /\ length blocks = length patterns
    /\ forall i pattern block,
         patterns !! i = Some pattern -> blocks !! i = Some block ->
         exists parts : list (list Observation),
           block = concat parts /\ length parts = length pattern
           /\ (forall j occ_file part,
                 pattern !! j = Some occ_file -> parts !! j = Some part ->
                 Forall2 (fun fields o =>
                            observation_of_row (Z.of_nat i + 1) (Z.of_nat j + 1)
                              fields = Some o)
                         (rows_of occ_file) part)
           /\ forall j part o,
                parts !! j = Some part -> o ∈ part ->
                pattern_id (value o) = Z.of_nat i + 1
                /\ occurrence_id (value o) = Z.of_nat j + 1
                /\ 1 <= pattern_id (value o) /\ 1 <= occurrence_id (value o).
Proof.
  intros (obs & Hobs & ->)%parse_patterns_ok_inv.
  destruct (patterns_blocks _ _ Hobs) as (blocks & -> & Hlen & Hblocks).
  exists blocks. split; [done|]. split; [done|].
  intros i pattern block Hp Hb.
  destruct (pattern_parts_rows _ _ _ (Hblocks _ _ _ Hp Hb))
    as (parts & -> & Hl & Hrows).
  exists parts. split; [done|]. split; [done|]. split; [exact Hrows|].
  intros j part o Hpart [k Hk]%list_elem_of_lookup.
  destruct (lookup_lt_is_Some_2 pattern j) as [occ_file Hocc].
  { rewrite <- Hl. by eapply lookup_lt_Some. }
  destruct (Forall2_lookup_r _ _ _ _ _ (Hrows _ _ _ Hocc Hpart) Hk)
    as (fields & _ & Hrow).
  destruct (observation_ids _ _ _ _ Hrow) as [-> ->]. lia.
Qed.

Lemma ids_count_positions_from_one_bach :
  exists blocks : list (list Observation),
    written "test.jams" (document_of Demo.bach_mono_obs) Demo.world0
    = written "test.jams" (document_of (concat blocks)) Demo.world0
    /\ length blocks = length Demo.bach_mono
    /\ forall i pattern block,
         Demo.bach_mono !! i = Some pattern -> blocks !! i = Some block ->
         exists parts : list (list Observation),
           block = concat parts /\ length parts = length pattern
           /\ (forall j occ_file part,
                 pattern !! j = Some occ_file -> parts !! j = Some part ->
                 Forall2 (fun fields o =>
                            observation_of_row (B := Python.builtins)
                              (Z.of_nat i + 1) (Z.of_nat j + 1) fields = Some o)
                         (rows_of (FS := Tree.file_system Demo.bach)
                            (B := Python.builtins) occ_file) part)
           /\ forall j part o,
                parts !! j = Some part -> o ∈ part ->
                pattern_id (value o) = Z.of_nat i + 1
                /\ occurrence_id (value o) = Z.of_nat j + 1
                /\ 1 <= pattern_id (value o) /\ 1 <= occurrence_id (value o).
Proof.
  apply (ids_count_positions_from_one
           (FS := Tree.file_system Demo.bach) (B := Python.builtins)
           Demo.bach_mono "out/bach-monophonic.txt" Demo.world0).
  vm_compute. reflexivity.
Defined.

(** ** C10: a pattern directory without occurrence files uses up an id *)

Lemma elem_of_concat {A} (x : A) (ls : list (list A)) :
  x ∈ concat ls <-> exists l, l ∈ ls /\ x ∈ l.
Proof.
  rewrite list_elem_of_In, in_concat. split.
  - intros (l & Hl & Hx). exists l. by rewrite !list_elem_of_In.
  - intros (l & Hl & Hx). exists l. by rewrite <- !list_elem_of_In.
Qed.

Lemma pattern_block_ids `{FS : FileSystem} `{B : Builtins}
    pattern_n pattern block o :
  observations_of_pattern pattern_n pattern = Some block ->
  o ∈ block -> pattern_id (value o) = pattern_n.
Proof.
  intros (parts & -> & _ & Hids)%pattern_parts (part & Hpart & Ho)%elem_of_concat.
  apply list_elem_of_lookup in Hpart as [j Hj].
  by destruct (Hids _ _ _ Hj Ho).
Qed.

(** C10. A pattern directory (position [i] among the pattern directories of
    the annotators) whose [occurrences/csv] folder holds no CSV file is in
    the pattern list as an empty list of occurrences, at position [i].  In
    the document written for that list the block of that pattern is empty:
    no observation carries [pattern_id] [i + 1], and the observations of
    every later pattern carry a strictly larger id. *)
Theorem empty_pattern_uses_up_an_id `{FS : FileSystem} `{B : Builtins}
    (annotators : list string) (i : nat) (p : string)
    (out_file : string) (w w' : world) :
  pattern_dirs annotators !! i = Some p ->
  occurrences_of p = [] ->
  parse_patterns (get_gt_patterns annotators) out_file w = (inr tt, w') ->
  get_gt_patterns annotators !! i = Some []
  /\ exists blocks : list (list Observation),
       w' = written "test.jams" (document_of (concat blocks)) w
       /\ length blocks = length (get_gt_patterns annotators)
       /\ blocks !! i = Some []
       /\ (forall k pattern block,
             get_gt_patterns annotators !! k = Some pattern ->
             blocks !! k = Some block ->
             observations_of_pattern (Z.of_nat k + 1) pattern = Some block)
       /\ (forall o, o ∈ concat blocks ->
             pattern_id (value o) <> Z.of_nat i + 1)
       /\ (forall k block o, (i < k)%nat -> blocks !! k = Some block ->
             o ∈ block -> Z.of_nat i + 1 < pattern_id (value o)).
Proof.
  intros Hp Hocc (obs & Hobs & ->)%parse_patterns_ok_inv.
  assert (get_gt_patterns annotators !! i = Some []) as Hi.
  { rewrite get_gt_patterns_spec, list_lookup_fmap, Hp. simpl. by rewrite Hocc. }
  split; [done|].
  destruct (patterns_blocks _ _ Hobs) as (blocks & -> & Hlen & Hblocks).
  assert (forall k block o, blocks !! k = Some block -> o ∈ block ->
            pattern_id (value o) = Z.of_nat k + 1) as Hids.
  { intros k block o Hk Ho.
    destruct (lookup_lt_is_Some_2 (get_gt_patterns annotators) k) as [pattern Hpat].
    { rewrite <- Hlen. by eapply lookup_lt_Some. }
    exact (pattern_block_ids _ _ _ _ (Hblocks _ _ _ Hpat Hk) Ho). }
  assert (blocks !! i = Some []) as Hbi.
  { destruct (lookup_lt_is_Some_2 blocks i) as [block Hb].
    { rewrite Hlen. by eapply lookup_lt_Some. }
    pose proof (Hblocks _ _ _ Hi Hb) as Hempty.
    unfold observations_of_pattern in Hempty. rewrite gather_nil in Hempty.
    congruence. }
  exists blocks. repeat split; try done.
  - intros o (block & Hblock & Ho)%elem_of_concat.
    apply list_elem_of_lookup in Hblock as [k Hk].
    rewrite (Hids _ _ _ Hk Ho). intros Heq.
    assert (k = i) as -> by lia.
    rewrite Hbi in Hk. injection Hk as <-. by apply elem_of_nil in Ho.
  - intros k block o Hlt Hk Ho. rewrite (Hids _ _ _ Hk Ho). lia.
Qed.

(** On the dataset [Demo.gap], the pattern directory [E] has no occurrence
    file: id 2 is in no observation, and the row of [B] carries id 3. *)
Lemma empty_pattern_uses_up_an_id_gap :
  let FS := Tree.file_system Demo.gap in
  let annotators :=
    [Demo.annotatorX] in
  let doc :=
    document_of
      [ {| time := 1.5; duration := 0.5;
           value := {| midi_pitch := 60; morph_pitch := 33; staff := 1;
                       pattern_id := 1; occurrence_id := 1 |} |};
        {| time := 7; duration := 1;
           value := {| midi_pitch := 48; morph_pitch := 28; staff := 0;
                       pattern_id := 3; occurrence_id := 1 |} |} ] in
  get_gt_patterns annotators !! 1%nat = Some []
  /\ exists blocks : list (list Observation),
       written "test.jams" doc Demo.world0
       = written "test.jams" (document_of (concat blocks)) Demo.world0
       /\ length blocks = length (get_gt_patterns annotators)
       /\ blocks !! 1%nat = Some []
       /\ (forall k pattern block,
             get_gt_patterns annotators !! k = Some pattern ->
             blocks !! k = Some block ->
             observations_of_pattern (B := Python.builtins) (Z.of_nat k + 1) pattern
             = Some block)
       /\ (forall o, o ∈ concat blocks ->
             pattern_id (value o) <> Z.of_nat 1 + 1)
       /\ (forall k block o, (1 < k)%nat -> blocks !! k = Some block ->
             o ∈ block -> Z.of_nat 1 + 1 < pattern_id (value o)).
Proof.
  intros FS annotators doc.
  apply (empty_pattern_uses_up_an_id (FS := FS) (B := Python.builtins)
           annotators 1
           "jku/groundTruth/bach/monophonic/repeatedPatterns/annotatorX/E"
           "out/bach-monophonic.txt" Demo.world0).
  - vm_compute. reflexivity.
  - vm_compute. reflexivity.
  - vm_compute. reflexivity.
Defined.

(** ** C6: a malformed row aborts the document *)

Lemma malformed_None `{B : Builtins} pattern_n occ_n fields :
  malformed fields -> observation_of_row pattern_n occ_n fields = None.
Proof.
  unfold observation_of_row.
  destruct fields as [|c0 [|c1 [|c2 [|c3 [|c4 rest]]]]];
    intros [Hlen|[(k & c & Hk & Hc & Hconv)|(c & Hc & Hconv)]];
    simpl in *; try done; try lia.
  - destruct k as [|[|[|[|k]]]]; simpl in Hc; try lia;
      injection Hc as ->; rewrite Hconv; simpl; try done;
      repeat (match goal with |- context [py_float ?x] => destruct (py_float x) end;
              simpl; try done).
  - injection Hc as ->. rewrite Hconv.
    by destruct (py_float c0), (py_float c1), (py_float c2), (py_float c3).
Qed.

(** C6. When every occurrence file of a pattern list can be opened and one of
    them has a row with fewer than five columns, or with a column that does
    not convert to its numeric type, [parse_patterns] raises [IndexError] or
    [ValueError] (the parse errors of the script) and the world is as it was:
    nothing is written.  The loop of [process] stops at that pattern list with
    an exception, again with nothing written for it. *)
Theorem malformed_row_aborts_the_document `{FS : FileSystem} `{B : Builtins}
    (patterns : list (list string)) (pattern : list string)
    (occ_file text : string) (fields : list string)
    (out_file : string) (w : world) :
  all_open patterns ->
  pattern ∈ patterns -> occ_file ∈ pattern ->
  open_read occ_file = Some text -> fields ∈ csv_reader text ->
  malformed fields ->
  exists e, parse_error e
    /\ parse_patterns patterns out_file w = (inl e, w)
    /\ forall out_dir rest, exists e',
         for_each (patterns :: rest) (write_document out_dir) tt w = (inl e', w).
Proof.
  intros Hopen Hpattern Hocc Htext Hfields Hbad.
  assert (observations_of_patterns patterns = None) as Hnone.
  { apply list_elem_of_lookup in Hpattern as [i Hi].
    apply list_elem_of_lookup in Hocc as [j Hj].
    unfold observations_of_patterns. apply (gather_is_None _ _ _ _ Hi).
    unfold observations_of_pattern. apply (gather_is_None _ _ _ _ Hj).
    unfold observations_of_occurrence. rewrite Htext. simpl.
    apply mapM_None_2, Exists_exists. exists fields.
    split; [done|by apply malformed_None]. }
  pose proof (parse_patterns_spec parse_error (or_introl eq_refl)
                (or_intror eq_refl) patterns out_file w) as Hspec.
  rewrite Hnone in Hspec. destruct Hspec as (e & He & Hrun).
  { intros p o Hp Ho Hno. destruct (Hopen p o Hp Ho) as [? ?]. congruence. }
  exists e. split; [done|]. split; [done|].
  intros out_dir rest.
  destruct (write_document_spec out_dir patterns w)
    as [(e' & Hw)|(doc & (_ & obs & Hobs & _) & _)]; [|congruence].
  exists e'. by apply write_loop_abort.
Qed.

(** On the dataset [Demo.short_row] the only row has four columns. *)
Lemma malformed_row_aborts_the_document_short_row :
  exists e, parse_error e
    /\ parse_patterns (FS := Tree.file_system Demo.short_row) (B := Python.builtins)
         [[Demo.occ_A1]]
         "out/bach-monophonic.txt" Demo.world0
       = (inl e, Demo.world0)
    /\ forall out_dir rest, exists e',
         for_each
           ([[Demo.occ_A1]]
              :: rest)
           (write_document (FS := Tree.file_system Demo.short_row)
              (B := Python.builtins) out_dir) tt Demo.world0
         = (inl e', Demo.world0).
Proof.
  apply (malformed_row_aborts_the_document
           (FS := Tree.file_system Demo.short_row) (B := Python.builtins)
           [[Demo.occ_A1]] [Demo.occ_A1] Demo.occ_A1
           "1.5,60,33,0.5" ["1.5"; "60"; "33"; "0.5"]%string).
  - intros p o Hp Ho.
    apply list_elem_of_singleton in Hp as ->.
    apply list_elem_of_singleton in Ho as ->.
    vm_compute. eauto.
  - apply list_elem_of_here.
  - apply list_elem_of_here.
  - vm_compute. reflexivity.
  - vm_compute. apply list_elem_of_here.
  - left. simpl. lia.
Defined.

(** ** C7: an empty pattern list is refused *)

(** C7. For an empty pattern list [get_out_file] fails its assertion
    ([AssertionError], the invalid-input error of the script): no output file
    path is derived.  The round of the loop of [process] for that list raises
    it with the world as it was, so nothing is written for the list; wherever
    the list stands among the pattern lists, the loop ends there with the
    world the earlier lists left (or earlier, with their exception). *)
Theorem empty_pattern_list_is_refused `{FS : FileSystem} `{B : Builtins}
    (out_dir : string) (before rest : list (list (list string))) (w : world) :
  get_out_file [] out_dir = inl AssertionError
  /\ write_document out_dir [] tt w = (inl AssertionError, w)
  /\ for_each (before ++ [] :: rest) (write_document out_dir) tt w
     = match for_each before (write_document out_dir) tt w with
       | (inr _, w1) => (inl AssertionError, w1)
       | (inl e, w1) => (inl e, w1)
       end.
Proof.
  split; [reflexivity|]. split; [reflexivity|].
  rewrite for_each_app. unfold mbind, M_bind, bind.
  destruct (for_each before (write_document out_dir) tt w) as [[e|[]] w1];
    reflexivity.
Qed.

(** ** C8: the columns of a row *)

(** C8. A row with at least five columns, the first four of which convert to
    floats and the fifth to an integer, adds one observation: column 0 is its
    [time], column 1 its [midi_pitch], column 2 its [morph_pitch], column 3
    its [duration] and column 4 its [staff].  With Python's [csv.reader],
    [float] and [int], the row [1.5,60,33,0.5,1] yields [time = 1.5],
    [midi_pitch = 60.0], [morph_pitch = 33.0], [duration = 0.5] and
    [staff = 1]. *)
Theorem row_columns :
  (forall (B : Builtins) (pattern_n occ_n : Z) (c0 c1 c2 c3 c4 : string)
          (rest : list string) (t midi morph d : float) (st : Z)
          (annot : Annotation) (w : world),
      py_float c0 = Some t -> py_float c1 = Some midi ->
      py_float c2 = Some morph -> py_float c3 = Some d ->
      py_int c4 = Some st ->
      row_body pattern_n occ_n (c0 :: c1 :: c2 :: c3 :: c4 :: rest) annot w
      = (inr (add_observation annot t d
                {| midi_pitch := midi; morph_pitch := morph; staff := st;
                   pattern_id := pattern_n; occurrence_id := occ_n |}), w))
  /\ (forall (pattern_n occ_n : Z) (annot : Annotation) (w : world),
        for_each (csv_reader (Builtins := Python.builtins) "1.5,60,33,0.5,1")
          (row_body (B := Python.builtins) pattern_n occ_n) annot w
        = (inr (add_observation annot 1.5 0.5
                  {| midi_pitch := 60; morph_pitch := 33; staff := 1;
                     pattern_id := pattern_n; occurrence_id := occ_n |}), w)).
Proof.
  split.
  - intros B pattern_n occ_n c0 c1 c2 c3 c4 rest t midi morph d st annot w
      H0 H1 H2 H3 H4.
    pose proof (row_body_spec (fun _ => True) I I pattern_n occ_n
                  (c0 :: c1 :: c2 :: c3 :: c4 :: rest) annot w) as Hrow.
    unfold observation_of_row in Hrow.
    rewrite H0, H1, H2, H3, H4 in Hrow. exact Hrow.
  - intros pattern_n occ_n annot w.
    change (csv_reader "1.5,60,33,0.5,1")
      with [["1.5"; "60"; "33"; "0.5"; "1"]%string].
    simpl for_each.
    erewrite bind_ok; [reflexivity|].
    exact (row_body_spec (B := Python.builtins) (fun _ => True) I I
             pattern_n occ_n ["1.5"; "60"; "33"; "0.5"; "1"]%string annot w).
Qed.

Lemma row_columns_second_row :
  row_body (B := Python.builtins) 4 2 ["3"; "62"; "34"; "0.25"; "2"]%string
    new_annotation Demo.world0
  = (inr (add_observation new_annotation 3 0.25
            {| midi_pitch := 62; morph_pitch := 34; staff := 2;
               pattern_id := 4; occurrence_id := 2 |}), Demo.world0).
Proof.
  apply (proj1 row_columns Python.builtins); reflexivity.
Defined.

(** ** C9: the output file name *)

Lemma list_index_app (x : string) (pre l : list string) :
  x ∉ pre -> list_index x (pre ++ x :: l) = inr (Z.of_nat (length pre)).
Proof.
  induction pre as [|y pre IH]; intros Hx; simpl.
  - by rewrite decide_True.
  - apply not_elem_of_cons in Hx as [Hne Hx].
    rewrite decide_False by done. rewrite (IH Hx). simpl. f_equal. lia.
Qed.

(** C9 as stated fails on the pattern list [[[]]], which is not empty:
    its first pattern has no occurrence file, and [patterns[0][0]] raises
    [IndexError]. *)
Lemma get_out_file_needs_an_occurrence :
  ~ (forall (patterns : list (list string)) (out_dir : string),
       patterns <> [] ->
       exists out_file, get_out_file patterns out_dir = inr out_file).
Proof.
  intros H. destruct (H [[]] "out"%string ltac:(done)) as [out_file Hout].
  vm_compute in Hout. discriminate.
Qed.

(** C9, amended. For a pattern list whose first pattern has a first
    occurrence file, and the path of that file has a segment [groundTruth]
    followed by at least two more segments [a] and [b], the output file is
    [a-b.txt] in the output directory, where [groundTruth] is the first
    segment of that name. *)
Theorem get_out_file_from_first_occurrence
    (occ_file : string) (occ_files : list string)
    (rest : list (list string)) (out_dir : string)
    (pre : list string) (a b : string) (post : list string) :
  str_split slash occ_file = pre ++ "groundTruth"%string :: a :: b :: post ->
  "groundTruth"%string ∉ pre ->
  get_out_file ((occ_file :: occ_files) :: rest) out_dir
  = inr (path_join out_dir [a +:+ "-" +:+ b +:+ ".txt"]).
Proof.
  intros Hsplit Hpre. unfold get_out_file.
  change 0 with (Z.of_nat 0). rewrite !getitem_lookup. simpl.
  rewrite Hsplit, (list_index_app _ _ _ Hpre). simpl.
  replace (Z.of_nat (length pre) - 1 + 2) with (Z.of_nat (length pre + 1)) by lia.
  replace (Z.of_nat (length pre) - 1 + 3) with (Z.of_nat (length pre + 2)) by lia.
  rewrite !getitem_lookup.
  rewrite !lookup_app_r by lia.
  replace (length pre + 1 - length pre)%nat with 1%nat by lia.
  replace (length pre + 2 - length pre)%nat with 2%nat by lia.
  reflexivity.
Qed.

Lemma get_out_file_from_first_occurrence_bach :
  get_out_file [[Demo.occ_A1]] "out"
  = inr (path_join "out" ["bach" +:+ "-" +:+ "monophonic" +:+ ".txt"]%string).
Proof.
  apply (get_out_file_from_first_occurrence Demo.occ_A1 [] [] "out"
           ["jku"%string] "bach" "monophonic"
           ["repeatedPatterns"; "annotatorX"; "A"; "occurrences"; "csv"; "occ1.csv"]%string).
  - reflexivity.
  - intros Hin. apply list_elem_of_singleton in Hin. discriminate.
Defined.

(** ** C4: every document goes to [test.jams] *)

(** C4 as stated fails on [Demo.two_pieces], where [mozart] is processed
    before [bach].  After the run [test.jams] holds the polyphonic document
    of [bach] only: the monophonic annotations of the piece processed last
    have not survived either. *)
Lemma last_piece_loses_its_monophonic_document :
  let FS := Tree.file_system Demo.two_pieces in
  let mono_row :=
    {| time := 1.5; duration := 0.5;
       value := {| midi_pitch := 60; morph_pitch := 33; staff := 1;
                   pattern_id := 1; occurrence_id := 1 |} |} in
  let poly_row :=
    {| time := 0; duration := 2;
       value := {| midi_pitch := 72; morph_pitch := 40; staff := 2;
                   pattern_id := 1; occurrence_id := 1 |} |} in
  glob (path_join "jku" ["groundTruth"; "*"]%string)
  = ["jku/groundTruth/mozart"; "jku/groundTruth/bach"]%string
  /\ observations_under (B := Python.builtins)
       (annotators_of "jku/groundTruth/bach" "monophonic") = Some [mono_row]
  /\ (exists w',
        process (B := Python.builtins) "jku" "out" Demo.world0 = (inr tt, w')
        /\ files w' !! "test.jams"%string = Some (document_of [poly_row]))
  /\ (mono_row ∉ [poly_row]).
Proof.
  intros FS mono_row poly_row.
  split; [reflexivity|]. split; [vm_compute; reflexivity|]. split.
  - eexists. split; [vm_compute; reflexivity|]. vm_compute. reflexivity.
  - intros Hin%list_elem_of_singleton.
    apply (f_equal (fun o => staff (value o))) in Hin. discriminate.
Qed.

(** C4, amended. When [process] succeeds an output file name was derived for
    the document of every piece and annotation type, but each document was
    saved under the one name [test.jams].  So after a run over one or more
    pieces that file holds the document saved last, which is the polyphonic
    document of the piece processed last; the monophonic document of that
    piece and the documents of the pieces before it are overwritten, and no
    other file has changed. *)
Theorem only_the_last_polyphonic_document_survives
    `{FS : FileSystem} `{B : Builtins}
    (jku_dir out_dir : string) (earlier : list string) (last_piece : string)
    (w w' : world) :
  process jku_dir out_dir w = (inr tt, w') ->
  glob (path_join jku_dir ["groundTruth"; "*"]%string) = earlier ++ [last_piece] ->
  exists docs obs,
    Forall2 (document_of_annotators out_dir)
      (piece_types (earlier ++ [last_piece])) docs
    /\ length docs = (2 * length earlier + 2)%nat
    /\ saved w' = saved w ++ ((fun doc => ("test.jams"%string, doc)) <$> docs)
    /\ observations_under (annotators_of last_piece "polyphonic") = Some obs
    /\ last docs = Some (document_of obs)
    /\ files w' = <["test.jams"%string := document_of obs]> (files w)
    /\ forall name, name <> "test.jams"%string ->
                    files w' !! name = files w !! name.
Proof.
  intros (w0 & docs & Hprep & Hdocs & ->)%process_ok_inv Hpieces.
  rewrite Hpieces in Hdocs.
  destruct (prepared_output _ _ _ Hprep) as [Hfiles Hsaved].
  pose proof Hdocs as Hsplit. rewrite piece_types_snoc in Hsplit.
  apply Forall2_app_inv_l in Hsplit as (docs1 & docs2 & _ & Hlast & ->).
  apply Forall2_cons_inv_l in Hlast as (mono & docs3 & _ & Hlast & ->).
  apply Forall2_cons_inv_l in Hlast as (poly & docs4 & Hpoly & Hnil & ->).
  apply Forall2_nil_inv_l in Hnil as ->.
  destruct Hpoly as (_ & obs & Hobs & ->). simpl in Hobs.
  assert (last (docs1 ++ [mono; document_of obs]) = Some (document_of obs))
    as Hlastdoc.
  { change [mono; document_of obs] with ([mono] ++ [document_of obs]).
    by rewrite app_assoc, last_snoc. }
  exists (docs1 ++ [mono; document_of obs]), obs.
  split; [exact Hdocs|]. split.
  { rewrite <- (Forall2_length _ _ _ Hdocs), piece_types_length, length_app.
    simpl. lia. }
  split; [by rewrite written_fold_saved, Hsaved|].
  split; [exact Hobs|]. split; [exact Hlastdoc|].
  rewrite written_fold_files, Hlastdoc, Hfiles. split; [done|].
  intros name Hname. by rewrite lookup_insert_ne.
Qed.

(** On [Demo.two_pieces], [mozart] is processed before [bach]. *)
Lemma only_the_last_polyphonic_document_survives_two_pieces :
  let FS := Tree.file_system Demo.two_pieces in
  let w' := (process (B := Python.builtins) "jku" "out" Demo.world0).2 in
  exists docs obs,
    Forall2 (document_of_annotators (B := Python.builtins) "out")
      (piece_types (["jku/groundTruth/mozart"%string] ++ ["jku/groundTruth/bach"%string]))
      docs
    /\ length docs = (2 * length ["jku/groundTruth/mozart"%string] + 2)%nat
    /\ saved w' = saved Demo.world0
                  ++ ((fun doc => ("test.jams"%string, doc)) <$> docs)
    /\ observations_under (B := Python.builtins)
         (annotators_of "jku/groundTruth/bach" "polyphonic") = Some obs
    /\ last docs = Some (document_of obs)
    /\ files w' = <["test.jams"%string := document_of obs]> (files Demo.world0)
    /\ forall name, name <> "test.jams"%string ->
                    files w' !! name = files Demo.world0 !! name.
Proof.
  intros FS w'.
  apply (only_the_last_polyphonic_document_survives
           (FS := FS) (B := Python.builtins) "jku" "out"
           ["jku/groundTruth/mozart"%string] "jku/groundTruth/bach"
           Demo.world0 w').
  - vm_compute. reflexivity.
  - reflexivity.
Defined.

(** ** C3: one pattern list per piece and annotation type *)

(** C3 as stated fails on [Demo.bach], a dataset of one piece: the
    script builds two pattern lists for the piece, not the one list with the
    patterns of both types, and saves two documents. *)
Lemma pieces_are_not_merged :
  let FS := Tree.file_system Demo.bach in
  let pieces := glob (path_join "jku" ["groundTruth"; "*"]%string) in
  pieces = ["jku/groundTruth/bach"%string]
  /\ length (spec_all_patterns pieces) = 1%nat
  /\ length (collect_patterns pieces) = 2%nat
  /\ collect_patterns pieces <> spec_all_patterns pieces
  /\ exists w', process (B := Python.builtins) "jku" "out" Demo.world0 = (inr tt, w')
                /\ length (saved w') = 2%nat.
Proof.
  intros FS pieces. repeat split.
  - vm_compute. discriminate.
  - eexists. split; [vm_compute; reflexivity|reflexivity].
Qed.

(** C3, amended. Each discovered piece yields one pattern list per
    annotation type, monophonic then polyphonic: the patterns of the
    annotators of that type, concatenated.  When [process] succeeds the
    builder ran once on each of these lists, in order, so it saved two
    documents per piece. *)
Theorem one_document_per_piece_and_type `{FS : FileSystem} `{B : Builtins}
    (jku_dir out_dir : string) (w w' : world) :
  process jku_dir out_dir w = (inr tt, w') ->
  let pieces := glob (path_join jku_dir ["groundTruth"; "*"]%string) in
  collect_patterns pieces = pieces ≫= patterns_of_piece
  /\ exists docs,
       Forall2 (document_for out_dir) (pieces ≫= patterns_of_piece) docs
       /\ length docs = (2 * length pieces)%nat
       /\ saved w' = saved w ++ ((fun doc => ("test.jams"%string, doc)) <$> docs).
Proof.
  intros Hrun pieces. split; [apply collect_patterns_spec|].
  rewrite process_unfold in Hrun.
  destruct (prepared out_dir w) as [e|w0] eqn:Hprep; [done|].
  apply write_loop_ok in Hrun as (docs & Hdocs & ->).
  exists docs. fold pieces in Hdocs.
  split; [by rewrite <- collect_patterns_spec|].
  split.
  - rewrite <- (Forall2_length _ _ _ Hdocs). apply collect_patterns_length.
  - rewrite written_fold_saved.
    by destruct (prepared_output _ _ _ Hprep) as [_ ->].
Qed.

Lemma one_document_per_piece_and_type_bach :
  let FS := Tree.file_system Demo.bach in
  let w' := (process (B := Python.builtins) "jku" "out" Demo.world0).2 in
  let pieces := glob (path_join "jku" ["groundTruth"; "*"]%string) in
  collect_patterns pieces = pieces ≫= patterns_of_piece
  /\ exists docs,
       Forall2 (document_for (B := Python.builtins) "out")
         (pieces ≫= patterns_of_piece) docs
       /\ length docs = (2 * length pieces)%nat
       /\ saved w' = saved Demo.world0
                     ++ ((fun doc => ("test.jams"%string, doc)) <$> docs).
Proof.
  intros FS w'.
  apply (one_document_per_piece_and_type (FS := FS) (B := Python.builtins)
           "jku" "out" Demo.world0 w').
  vm_compute. reflexivity.
Defined.

(** ** C2: the polyphonic filter *)

(** C2 fails on the script.  On [Demo.strangers] the polyphonic annotators
    are listed as [unknownGuy], [otherGuy], neither in the allow-list.
    Removing [unknownGuy] while the loop is at position 0 moves [otherGuy] to
    position 0, and the loop goes on at position 1: [otherGuy] is never
    looked at, stays in the list, and its row is in the document saved
    last. *)
Theorem filter_skips_the_annotator_after_a_removed_one :
  let FS := Tree.file_system Demo.strangers in
  let piece := "jku/groundTruth/bach"%string in
  let unknownGuy := "jku/groundTruth/bach/polyphonic/repeatedPatterns/unknownGuy"%string in
  let otherGuy := "jku/groundTruth/bach/polyphonic/repeatedPatterns/otherGuy"%string in
  glob (path_join piece ["polyphonic"; "repeatedPatterns"; "*"]%string)
  = [unknownGuy; otherGuy]
  /\ (path_tail unknownGuy ∉ valid_annotators)
  /\ (path_tail otherGuy ∉ valid_annotators)
  /\ spec_annotators piece "polyphonic" = []
  /\ annotators_of piece "polyphonic" = [otherGuy]
  /\ exists w',
       process (B := Python.builtins) "jku" "out" Demo.world0 = (inr tt, w')
       /\ files w' !! "test.jams"%string
          = Some (document_of
                    [ {| time := 4; duration := 1;
                         value := {| midi_pitch := 55; morph_pitch := 32;
                                     staff := 1; pattern_id := 1;
                                     occurrence_id := 1 |} |} ]).
Proof.
  intros FS piece unknownGuy otherGuy.
  split; [reflexivity|].
  split; [refine (bool_decide_unpack (_ ∉ _) _); vm_compute; exact I|].
  split; [refine (bool_decide_unpack (_ ∉ _) _); vm_compute; exact I|].
  split; [vm_compute; reflexivity|].
  split; [vm_compute; reflexivity|].
  eexists. split; [vm_compute; reflexivity|].
  vm_compute. reflexivity.
Qed.

(** * Further properties of the script *)

(** ** The polyphonic filter of [process] *)

Section Filter.
Context `{FS : FileSystem}.

(** X1. For every piece and annotation type, the annotators the script keeps
    lie between those the specification keeps and the listing, in listing
    order: an allow-listed polyphonic annotator and a monophonic annotator are
    never dropped, and nothing is added or reordered. *)
Theorem kept_annotators_between_spec_and_listing (piece type : string) :
  spec_annotators piece type `sublist_of` annotators_of piece type
  /\ annotators_of piece type
     `sublist_of` glob (path_join piece [type; "repeatedPatterns"; "*"]%string).
Proof.
  unfold spec_annotators, annotators_of.
  destruct (String.eqb type "polyphonic"); [|done].
  split; [|apply remove_invalid_sublist].
  rewrite <- (remove_invalid_filter
                (length (glob (path_join piece [type; "repeatedPatterns"; "*"]%string)))
                0).
  apply sublist_filter.
Qed.

Lemma skip_filter_filter_bounded n annotators :
  (length annotators <= n)%nat ->
  no_strangers_in_a_row annotators ->
  skip_filter annotators
  = filter (fun a => path_tail a ∈ valid_annotators) annotators.
Proof.
  revert annotators. induction n as [|n IH]; intros annotators Hlen Hrow.
  - destruct annotators; [done|simpl in Hlen; lia].
  - destruct annotators as [|a rest]; [done|]. simpl in Hlen. simpl skip_filter.
    assert (no_strangers_in_a_row rest) as Hrest.
    { intros i x y Hx Hy. apply (Hrow (S i) x y Hx Hy). }
    case_bool_decide as Ha.
    + rewrite filter_cons_False by done.
      destruct rest as [|b rest']; [done|].
      assert (allow_listed b) as Hb by (by apply (Hrow 0%nat a b)).
      rewrite filter_cons_True by done. f_equal.
      apply IH; [simpl in Hlen; lia|].
      intros i x y Hx Hy. apply (Hrest (S i) x y Hx Hy).
    + rewrite filter_cons_True by done. f_equal. apply IH; [lia|done].
Qed.

(** X3. When the polyphonic annotators of a piece are listed without
    repetition and no annotator outside the allow-list comes right after
    another one outside it, the script keeps exactly the allow-listed
    annotators: there the loop that removes while it iterates is a filter. *)
Theorem polyphonic_filter_without_neighbours (piece : string) :
  NoDup (glob (path_join piece ["polyphonic"; "repeatedPatterns"; "*"]%string)) ->
  no_strangers_in_a_row
    (glob (path_join piece ["polyphonic"; "repeatedPatterns"; "*"]%string)) ->
  annotators_of piece "polyphonic" = spec_annotators piece "polyphonic".
Proof.
  intros Hnd Hrow. unfold annotators_of, spec_annotators. simpl.
  rewrite (remove_invalid_skip _ [] _ Hnd) by done. simpl.
  by apply (skip_filter_filter_bounded _ _ (Nat.le_refl _)).
Qed.

End Filter.

(** On [Demo.strangers] the listing has no repetition, and the loop leaves
    what [skip_filter] says. *)
Lemma annotators_of_polyphonic_strangers :
  annotators_of (FS := Tree.file_system Demo.strangers)
    "jku/groundTruth/bach" "polyphonic"
  = skip_filter
      (glob (FileSystem := Tree.file_system Demo.strangers)
         (path_join "jku/groundTruth/bach"
            ["polyphonic"; "repeatedPatterns"; "*"]%string)).
Proof.
  apply (annotators_of_polyphonic (FS := Tree.file_system Demo.strangers)).
  refine (bool_decide_unpack (NoDup _) _). vm_compute. exact I.
Defined.

(** On [Demo.guests] the polyphonic listing is [bruhn], [unknownGuy],
    [tomCollins]: the annotator outside the allow-list is followed by one
    that is in it, so the loop removes it and skips an annotator it would
    have kept anyway. *)
Lemma polyphonic_filter_without_neighbours_guests :
  annotators_of (FS := Tree.file_system Demo.guests)
    "jku/groundTruth/bach" "polyphonic"
  = spec_annotators (FS := Tree.file_system Demo.guests)
      "jku/groundTruth/bach" "polyphonic".
Proof.
  apply (polyphonic_filter_without_neighbours (FS := Tree.file_system Demo.guests)).
  - refine (bool_decide_unpack (NoDup _) _). vm_compute. exact I.
  - intros i a b Ha Hb Hstranger.
    destruct i as [|[|i]].
    + exfalso. apply Hstranger. injection Ha as <-.
      refine (bool_decide_unpack (_ ∈ _) _). vm_compute. exact I.
    + injection Hb as <-.
      refine (bool_decide_unpack (_ ∈ _) _). vm_compute. exact I.
    + destruct i; vm_compute in Hb; discriminate.
Defined.

(** ** [get_gt_patterns] *)

Section Patterns.
Context `{FS : FileSystem}.

(** X4. The lists [get_gt_patterns] returns are exactly the CSV listings of
    the directories listed directly under one of the annotators: an entry
    that is not a directory contributes nothing, and every directory
    contributes its listing, also when that is empty. *)
Theorem get_gt_patterns_entries (annotators : list string)
    (pattern : list string) :
  pattern ∈ get_gt_patterns annotators
  <-> exists annotator p,
        annotator ∈ annotators
        /\ p ∈ glob (path_join annotator ["*"%string])
        /\ isdir p = true
        /\ pattern = glob (path_join p ["occurrences"; "csv"; "*.csv"]%string).
Proof.
  rewrite get_gt_patterns_spec, list_elem_of_fmap. unfold pattern_dirs. split.
  - intros (p & -> & Hp). apply list_elem_of_bind in Hp as (a & Hp & Ha).
    apply list_elem_of_filter in Hp as [Hdir Hp]. by exists a, p.
  - intros (a & p & Ha & Hp & Hdir & ->). exists p. split; [done|].
    apply list_elem_of_bind. exists a. split; [|done].
    by apply list_elem_of_filter.
Qed.

(** X5. The patterns of two lists of annotators, one after the other, are
    the patterns of the first list followed by those of the second: patterns
    are neither merged nor dropped across annotators. *)
Theorem get_gt_patterns_app (annotators1 annotators2 : list string) :
  get_gt_patterns (annotators1 ++ annotators2)
  = get_gt_patterns annotators1 ++ get_gt_patterns annotators2.
Proof.
  rewrite !get_gt_patterns_spec. unfold pattern_dirs.
  by rewrite bind_app, fmap_app.
Qed.

End Patterns.

(** ** [get_out_file] *)

Lemma list_index_inv (x : string) (l : list string) (i : Z) :
  list_index x l = inr i ->
  exists pre post,
    l = pre ++ x :: post /\ (x ∉ pre) /\ i = Z.of_nat (length pre).
Proof.
  revert i. induction l as [|y l IH]; intros i; simpl; [done|].
  case_decide as Hy.
  - intros [= <-]. subst y. exists [], l. repeat split. apply not_elem_of_nil.
  - destruct (list_index x l) as [e|j] eqn:Hj; simpl; [done|].
    intros [= <-]. destruct (IH j eq_refl) as (pre & post & -> & Hpre & ->).
    exists (y :: pre), post. repeat split.
    + apply not_elem_of_cons. split; [congruence|done].
    + simpl length. lia.
Qed.

Lemma list_index_absent (x : string) (l : list string) :
  x ∉ l -> list_index x l = inl ValueError.
Proof.
  induction l as [|y l IH]; intros Hx; simpl; [done|].
  apply not_elem_of_cons in Hx as [Hne Hx].
  rewrite decide_False by done. by rewrite IH.
Qed.

Lemma getitem_inv {A} (l : list A) (i : nat) (x : A) :
  getitem l (Z.of_nat i) = inr x -> l !! i = Some x.
Proof. rewrite getitem_lookup. destruct (l !! i); [congruence|done]. Qed.

(** [get_out_file] on a pattern list, for every output directory at once:
    an exception that does not depend on the directory, or the name [a-b.txt]
    joined to the directory. *)
Lemma get_out_file_uniform (patterns : list (list string)) :
  (exists e, forall out_dir, get_out_file patterns out_dir = inl e)
  \/ (exists occ_file occ_files rest pre a b post,
        patterns = (occ_file :: occ_files) :: rest
        /\ str_split slash occ_file = pre ++ "groundTruth"%string :: a :: b :: post
        /\ ("groundTruth"%string ∉ pre)
        /\ forall out_dir,
             get_out_file patterns out_dir
             = inr (path_join out_dir [a +:+ "-" +:+ b +:+ ".txt"])).
Proof.
  unfold get_out_file.
  destruct patterns as [|[|occ_file occ_files] rest];
    [left; by exists AssertionError|left; by exists IndexError|].
  change 0 with (Z.of_nat 0). rewrite !getitem_lookup. simpl.
  destruct (list_index "groundTruth"%string (str_split slash occ_file))
    as [e|i] eqn:Hi; simpl; [left; by exists e|].
  destruct (list_index_inv _ _ _ Hi) as (pre & post & Hsplit & Hpre & ->).
  rewrite Hsplit.
  replace (Z.of_nat (length pre) - 1 + 2) with (Z.of_nat (length pre + 1)) by lia.
  replace (Z.of_nat (length pre) - 1 + 3) with (Z.of_nat (length pre + 2)) by lia.
  rewrite !getitem_lookup, !lookup_app_r by lia.
  replace (length pre + 1 - length pre)%nat with 1%nat by lia.
  replace (length pre + 2 - length pre)%nat with 2%nat by lia.
  destruct post as [|a [|b post]]; simpl;
    [left; by exists IndexError|left; by exists IndexError|].
  right. by exists occ_file, occ_files, rest, pre, a, b, post.
Qed.

(** X6. If [get_out_file] returns a path, the first pattern has a first
    occurrence file whose path has a segment [groundTruth] followed by at
    least two segments [a] and [b], and the path returned is [a-b.txt] joined
    to the output directory; [groundTruth] is the first segment of that
    name.  Nothing but the first occurrence file of the first pattern and the
    output directory is looked at. *)
Theorem get_out_file_inv (patterns : list (list string))
    (out_dir out_file : string) :
  get_out_file patterns out_dir = inr out_file ->
  exists occ_file occ_files rest pre a b post,
    patterns = (occ_file :: occ_files) :: rest
    /\ str_split slash occ_file = pre ++ "groundTruth"%string :: a :: b :: post
    /\ ("groundTruth"%string ∉ pre)
    /\ out_file = path_join out_dir [a +:+ "-" +:+ b +:+ ".txt"].
Proof.
  intros Hout.
  destruct (get_out_file_uniform patterns)
    as [(e & He)|(occ & occs & rest & pre & a & b & post & -> & Hsplit & Hpre & Hok)].
  - rewrite He in Hout. discriminate.
  - rewrite Hok in Hout. injection Hout as <-.
    by exists occ, occs, rest, pre, a, b, post.
Qed.

Lemma get_out_file_inv_bach :
  exists occ_file occ_files rest pre a b post,
    [[Demo.occ_A1]] = (occ_file :: occ_files) :: rest
    /\ str_split slash occ_file = pre ++ "groundTruth"%string :: a :: b :: post
    /\ ("groundTruth"%string ∉ pre)
    /\ "out/bach-monophonic.txt"%string
       = path_join "out" [a +:+ "-" +:+ b +:+ ".txt"].
Proof.
  apply (get_out_file_inv [[Demo.occ_A1]] "out" "out/bach-monophonic.txt").
  reflexivity.
Defined.

(** X7. When the path of the first occurrence file of the first pattern has
    no segment [groundTruth], [get_out_file] raises [ValueError] (from
    [list.index]). *)
Theorem get_out_file_without_groundTruth (occ_file : string)
    (occ_files : list string) (rest : list (list string)) (out_dir : string) :
  "groundTruth"%string ∉ str_split slash occ_file ->
  get_out_file ((occ_file :: occ_files) :: rest) out_dir = inl ValueError.
Proof.
  intros Habsent. unfold get_out_file.
  change 0 with (Z.of_nat 0). rewrite !getitem_lookup. simpl.
  by rewrite (list_index_absent _ _ Habsent).
Qed.

Lemma get_out_file_without_groundTruth_csv :
  get_out_file [["data/bach/occ1.csv"%string]] "out" = inl ValueError.
Proof.
  apply (get_out_file_without_groundTruth "data/bach/occ1.csv" [] [] "out").
  intros Hin. vm_compute in Hin.
  repeat (apply elem_of_cons in Hin as [Hin|Hin]; [discriminate|]).
  by apply elem_of_nil in Hin.
Defined.

(** X8. When fewer than two segments follow the first [groundTruth] segment
    of that path, [get_out_file] raises [IndexError]. *)
Theorem get_out_file_short_path (occ_file : string)
    (occ_files : list string) (rest : list (list string)) (out_dir : string)
    (pre post : list string) :
  str_split slash occ_file = pre ++ "groundTruth"%string :: post ->
  "groundTruth"%string ∉ pre ->
  (length post < 2)%nat ->
  get_out_file ((occ_file :: occ_files) :: rest) out_dir = inl IndexError.
Proof.
  intros Hsplit Hpre Hpost. unfold get_out_file.
  change 0 with (Z.of_nat 0). rewrite !getitem_lookup. simpl.
  rewrite Hsplit, (list_index_app _ _ _ Hpre). simpl.
  replace (Z.of_nat (length pre) - 1 + 2) with (Z.of_nat (length pre + 1)) by lia.
  replace (Z.of_nat (length pre) - 1 + 3) with (Z.of_nat (length pre + 2)) by lia.
  rewrite !getitem_lookup, !lookup_app_r by lia.
  replace (length pre + 1 - length pre)%nat with 1%nat by lia.
  replace (length pre + 2 - length pre)%nat with 2%nat by lia.
  destruct post as [|a [|b post]]; simpl in *; try done. lia.
Qed.

Lemma get_out_file_short_path_piece :
  get_out_file [["jku/groundTruth/bach"%string]] "out" = inl IndexError.
Proof.
  apply (get_out_file_short_path "jku/groundTruth/bach" [] [] "out"
           ["jku"%string] ["bach"%string]).
  - reflexivity.
  - intros Hin. apply list_elem_of_singleton in Hin. discriminate.
  - simpl. lia.
Defined.

(** *** The file returned is directly in the output directory *)

Local Arguments Ascii.eqb : simpl never.
Local Arguments String.eqb : simpl never.

Lemma has_slash_app (s1 s2 : string) :
  has_slash (s1 +:+ s2) = has_slash s1 || has_slash s2.
Proof.
  unfold has_slash. induction s1 as [|c s1 IH]; simpl; [done|].
  by rewrite IH, orb_assoc.
Qed.

Lemma has_slash_cons (c : ascii) (s : string) :
  has_slash (String c s) = Ascii.eqb c slash || has_slash s.
Proof. unfold has_slash. simpl. by rewrite Ascii.eqb_sym. Qed.

Lemma str_split_no_slash (s seg : string) :
  seg ∈ str_split slash s -> has_slash seg = false.
Proof.
  revert seg. induction s as [|c s IH]; intros seg; simpl.
  - intros ->%list_elem_of_singleton. done.
  - destruct (Ascii.eqb c slash) eqn:Hc.
    + intros [->|Hseg]%elem_of_cons; [done|by apply IH].
    + destruct (str_split slash s) as [|f fs] eqn:Hsplit.
      * intros ->%list_elem_of_singleton. by rewrite has_slash_cons, Hc.
      * intros [->|Hseg]%elem_of_cons.
        -- rewrite has_slash_cons, Hc. simpl. apply (IH f). by left.
        -- apply IH. by right.
Qed.

Lemma path_tail_no_slash (name : string) :
  has_slash name = false -> path_tail name = name.
Proof.
  destruct name as [|c name]; [done|]. rewrite has_slash_cons.
  intros [Hc Hname]%orb_false_elim. simpl.
  fold (has_slash name). by rewrite Hc, Hname.
Qed.

Lemma ends_with_slash_cons (c : ascii) (s : string) :
  s <> EmptyString -> ends_with_slash (String c s) = ends_with_slash s.
Proof. by destruct s. Qed.

Lemma ends_with_slash_has_slash (s : string) :
  ends_with_slash s = true -> has_slash s = true.
Proof.
  induction s as [|c s IH]; [done|]. rewrite has_slash_cons.
  destruct s as [|d s].
  - simpl. by intros ->.
  - rewrite ends_with_slash_cons by done. intros Hs.
    rewrite (IH Hs). apply orb_true_r.
Qed.

Lemma path_tail_app (s name : string) :
  s = EmptyString \/ ends_with_slash s = true ->
  has_slash name = false ->
  path_tail (s +:+ name) = name.
Proof.
  intros Hs Hname. induction s as [|c s IH].
  - by apply path_tail_no_slash.
  - destruct Hs as [|Hs]; [done|].
    destruct s as [|d s].
    + simpl in Hs. simpl. rewrite Hs. by apply path_tail_no_slash.
    + rewrite ends_with_slash_cons in Hs by done.
      specialize (IH (or_intror Hs)).
      change (String c (String d s) +:+ name)
        with (String c (String d s +:+ name)).
      cbn [path_tail]. fold (has_slash (String d s +:+ name)).
      rewrite has_slash_app, (ends_with_slash_has_slash _ Hs). simpl.
      by destruct (Ascii.eqb c slash).
Qed.

Lemma ends_with_slash_snoc (s : string) : ends_with_slash (s +:+ "/") = true.
Proof.
  induction s as [|c s IH]; [done|].
  change (String c s +:+ "/") with (String c (s +:+ "/")).
  rewrite ends_with_slash_cons; [exact IH|by destruct s].
Qed.

Lemma append_assoc (s1 s2 s3 : string) :
  (s1 +:+ s2) +:+ s3 = s1 +:+ s2 +:+ s3.
Proof.
  induction s1 as [|c s1 IH]; [done|].
  change (String c ((s1 +:+ s2) +:+ s3) = String c (s1 +:+ s2 +:+ s3)).
  by rewrite IH.
Qed.

Lemma path_tail_join (out_dir name : string) :
  has_slash name = false -> path_tail (path_join out_dir [name]) = name.
Proof.
  intros Hname. unfold path_join. simpl.
  assert (starts_with_slash name = false) as ->.
  { destruct name as [|c name]; [done|]. rewrite has_slash_cons in Hname.
    by apply orb_false_elim in Hname as [Hc _]. }
  destruct (String.eqb_spec out_dir "") as [->|Hne]; simpl.
  - by apply path_tail_no_slash.
  - destruct (ends_with_slash out_dir) eqn:Hend.
    + by apply path_tail_app; [right|].
    + rewrite <- append_assoc.
      apply path_tail_app; [right; apply ends_with_slash_snoc|done].
Qed.

(** X9. The path [get_out_file] returns names a file directly in the output
    directory: its last component (what [os.path.split] gives back) is the
    name [a-b.txt], which has no slash in it and does not depend on the
    output directory. *)
Theorem get_out_file_in_out_dir (patterns : list (list string))
    (out_dir out_file : string) :
  get_out_file patterns out_dir = inr out_file ->
  has_slash (path_tail out_file) = false
  /\ out_file = path_join out_dir [path_tail out_file]
  /\ forall out_dir',
       get_out_file patterns out_dir'
       = inr (path_join out_dir' [path_tail out_file]).
Proof.
  intros Hout.
  destruct (get_out_file_uniform patterns)
    as [(e & He)|(occ & occs & rest & pre & a & b & post & -> & Hsplit & Hpre & Hok)].
  { rewrite He in Hout. discriminate. }
  rewrite Hok in Hout. injection Hout as <-.
  assert (has_slash (a +:+ "-" +:+ b +:+ ".txt") = false) as Hname.
  { rewrite !has_slash_app.
    rewrite (str_split_no_slash occ a), (str_split_no_slash occ b); [done| |];
      rewrite Hsplit, !elem_of_app, !elem_of_cons; tauto. }
  rewrite (path_tail_join _ _ Hname). split; [done|]. split; [done|].
  exact Hok.
Qed.

Lemma get_out_file_in_out_dir_bach :
  has_slash (path_tail "out/bach-monophonic.txt") = false
  /\ "out/bach-monophonic.txt"%string
     = path_join "out" [path_tail "out/bach-monophonic.txt"]
  /\ forall out_dir',
       get_out_file [[Demo.occ_A1]] out_dir'
       = inr (path_join out_dir' [path_tail "out/bach-monophonic.txt"]).
Proof.
  apply (get_out_file_in_out_dir [[Demo.occ_A1]] "out" "out/bach-monophonic.txt").
  reflexivity.
Defined.

(** ** [parse_patterns] *)

Section Parsing.
Context `{FS : FileSystem} `{B : Builtins}.

(** X10. Whatever the pattern list and the files, [parse_patterns] either
    raises an exception and leaves the world exactly as it was, or it
    succeeds and the only change is one save, under the name [test.jams], of a
    document with a single annotation that carries the fixed namespace,
    curator, version and corpus.  It never writes part of a document, never
    writes under another name and never creates a directory. *)
Theorem parse_patterns_all_or_nothing (patterns : list (list string))
    (out_file : string) (w : world) :
  (exists e, parse_patterns patterns out_file w = (inl e, w))
  \/ (exists obs,
        parse_patterns patterns out_file w
        = (inr tt,
           {| made_dirs := made_dirs w;
              files :=
                <["test.jams"%string :=
                    {| annotations :=
                         [ {| namespace := "pattern_jku";
                              annotation_metadata :=
                                {| curator :=
                                     {| curator_name := "Tom Collins";
                                        curator_email := "tom.collins@dmu.ac.uk" |};
                                   version := "August2013";
                                   corpus := "JKU Development Dataset" |};
                              data := obs |} ] |} ]> (files w);
              saved :=
                saved w
                ++ [("test.jams"%string,
                     {| annotations :=
                          [ {| namespace := "pattern_jku";
                               annotation_metadata :=
                                 {| curator :=
                                      {| curator_name := "Tom Collins";
                                         curator_email := "tom.collins@dmu.ac.uk" |};
                                    version := "August2013";
                                    corpus := "JKU Development Dataset" |};
                               data := obs |} ] |})] |})).
Proof.
  pose proof (parse_patterns_spec (fun _ => True) I I patterns out_file w
                (fun _ _ _ _ _ => I)) as Hspec.
  destruct (observations_of_patterns patterns) as [obs|].
  - right. exists obs. exact Hspec.
  - left. destruct Hspec as (e & _ & Hspec). by exists e.
Qed.

(** X11. A pattern list all of whose patterns are empty (no occurrence
    file), the empty pattern list among them, is parsed without opening any
    file, and the document written has no observation. *)
Theorem parse_patterns_without_occurrences (patterns : list (list string))
    (out_file : string) (w : world) :
  Forall (fun pattern => pattern = []) patterns ->
  parse_patterns patterns out_file w
  = (inr tt, written "test.jams" (document_of []) w).
Proof.
  intros Hempty.
  assert (forall g : nat -> Z,
            gather (fun i pattern => observations_of_pattern (g i) pattern)
                   patterns = Some []) as Hobs.
  { induction Hempty as [|pattern patterns -> _ IH]; intros g.
    - apply gather_nil.
    - rewrite gather_cons.
      change (observations_of_pattern (g 0%nat) [])
        with (Some (@nil Observation)).
      simpl. by rewrite (IH (fun j => g (S j))). }
  pose proof (parse_patterns_spec (fun _ => True) I I patterns out_file w
                (fun _ _ _ _ _ => I)) as Hspec.
  unfold observations_of_patterns in Hspec.
  rewrite (Hobs (fun i => Z.of_nat i + 1)) in Hspec. exact Hspec.
Qed.

(** X12. The columns of a row after the fifth are ignored: the row does
    exactly what its first five columns do, exception included. *)
Theorem row_body_ignores_further_columns (pattern_n occ_n : Z)
    (c0 c1 c2 c3 c4 : string) (more : list string)
    (annot : Annotation) (w : world) :
  row_body pattern_n occ_n (c0 :: c1 :: c2 :: c3 :: c4 :: more) annot w
  = row_body pattern_n occ_n [c0; c1; c2; c3; c4] annot w.
Proof.
  unfold row_body.
  change 1 with (Z.of_nat 1). change 2 with (Z.of_nat 2).
  change 3 with (Z.of_nat 3). change 4 with (Z.of_nat 4).
  change 0 with (Z.of_nat 0). rewrite !getitem_lookup. reflexivity.
Qed.

End Parsing.

Lemma parse_patterns_without_occurrences_two :
  parse_patterns (FS := Tree.file_system Demo.gap) (B := Python.builtins)
    [[]; []] "out/bach-monophonic.txt" Demo.world0
  = (inr tt, written "test.jams" (document_of []) Demo.world0).
Proof.
  apply (parse_patterns_without_occurrences
           (FS := Tree.file_system Demo.gap) (B := Python.builtins)).
  repeat constructor.
Defined.

(** *** Where the observations of a document come from *)

Section GatherMore.
Context {A C : Type}.
Implicit Types (f g : nat -> A -> option (list C)) (l : list A).

Lemma gather_app f l1 l2 :
  gather f (l1 ++ l2) =
  o1 ← gather f l1;
  o2 ← gather (fun j => f (length l1 + j)%nat) l2;
  Some (o1 ++ o2).
Proof.
  revert f. induction l1 as [|x l1 IH]; intros f.
  - change (gather f ([] ++ l2)) with (gather f l2).
    change (gather (fun j => f (length (@nil A) + j)%nat) l2) with (gather f l2).
    rewrite gather_nil. simpl. by destruct (gather f l2).
  - rewrite <- app_comm_cons, !gather_cons.
    destruct (f 0%nat x) as [o|]; simpl; [|done].
    rewrite IH. destruct (gather (fun j => f (S j)) l1); simpl; [|done].
    destruct (gather _ l2); simpl; [|done]. by rewrite app_assoc.
Qed.

Lemma gather_length f (size : A -> nat) l k :
  gather f l = Some k ->
  (forall i x b, l !! i = Some x -> f i x = Some b -> length b = size x) ->
  length k = sum_list (size <$> l).
Proof.
  revert f k. induction l as [|x l IH]; intros f k.
  - rewrite gather_nil. by intros [= <-].
  - rewrite gather_cons. destruct (f 0%nat x) as [o|] eqn:Ho; simpl; [|done].
    destruct (gather (fun j => f (S j)) l) as [os|] eqn:Hos; simpl; [|done].
    intros [= <-] Hsize. rewrite length_app.
    rewrite (Hsize 0%nat x o eq_refl Ho).
    rewrite (IH _ _ Hos); [done|].
    intros i y b Hy Hb. exact (Hsize (S i) y b Hy Hb).
Qed.

(** The element at a position of a gathered list sits at a position of the
    block of some element of [l]. *)
Lemma gather_lookup f l k i y :
  gather f l = Some k -> k !! i = Some y ->
  exists n x b j, l !! n = Some x /\ f n x = Some b /\ b !! j = Some y.
Proof.
  revert f k i. induction l as [|x l IH]; intros f k i.
  - rewrite gather_nil. by intros [= <-].
  - rewrite gather_cons. destruct (f 0%nat x) as [o|] eqn:Ho; simpl; [|done].
    destruct (gather (fun j => f (S j)) l) as [os|] eqn:Hos; simpl; [|done].
    intros [= <-] Hy. apply lookup_app_Some in Hy as [Hy|[Hge Hy]].
    + by exists 0%nat, x, o, i.
    + destruct (IH _ _ _ Hos Hy) as (n & x' & b & j & Hx' & Hb & Hj).
      by exists (S n), x', b, j.
Qed.

(** Two positions of a gathered list, in order, sit in the blocks of two
    elements of [l] in order, or in one block in order. *)
Lemma gather_order f l k i1 i2 y1 y2 :
  gather f l = Some k -> (i1 <= i2)%nat ->
  k !! i1 = Some y1 -> k !! i2 = Some y2 ->
  exists n1 n2 x1 x2 b1 b2 j1 j2,
    l !! n1 = Some x1 /\ l !! n2 = Some x2
    /\ f n1 x1 = Some b1 /\ f n2 x2 = Some b2
    /\ b1 !! j1 = Some y1 /\ b2 !! j2 = Some y2
    /\ ((n1 < n2)%nat \/ (n1 = n2 /\ (j1 <= j2)%nat)).
Proof.
  revert f k i1 i2. induction l as [|x l IH]; intros f k i1 i2.
  - rewrite gather_nil. by intros [= <-].
  - rewrite gather_cons. destruct (f 0%nat x) as [o|] eqn:Ho; simpl; [|done].
    destruct (gather (fun j => f (S j)) l) as [os|] eqn:Hos; simpl; [|done].
    intros [= <-] Hle H1 H2.
    apply lookup_app_Some in H1 as [H1|[Hge1 H1]];
      apply lookup_app_Some in H2 as [H2|[Hge2 H2]].
    + exists 0%nat, 0%nat, x, x, o, o, i1, i2. repeat split; try done.
      right. by split.
    + destruct (gather_lookup _ _ _ _ _ Hos H2) as (n & x' & b & j & Hx' & Hb & Hj).
      exists 0%nat, (S n), x, x', o, b, i1, j. repeat split; try done.
      left. lia.
    + apply lookup_lt_Some in H2. lia.
    + assert (i1 - length o <= i2 - length o)%nat as Hle' by lia.
      destruct (IH _ _ _ _ Hos Hle' H1 H2)
        as (n1 & n2 & x1 & x2 & b1 & b2 & j1 & j2
            & Hx1 & Hx2 & Hb1 & Hb2 & Hj1 & Hj2 & Hord).
      exists (S n1), (S n2), x1, x2, b1, b2, j1, j2. repeat split; try done.
      destruct Hord as [?|[-> ?]]; [left; lia|right; by split].
Qed.

Lemma gather_fmap_out {C'} (h : C -> C') f (f' : nat -> A -> option (list C')) l :
  (forall i x, f' i x = fmap (M := option) (fmap (M := list) h) (f i x)) ->
  gather f' l = fmap (M := option) (fmap (M := list) h) (gather f l).
Proof.
  revert f f'. induction l as [|x l IH]; intros f f' Hf.
  - by rewrite !gather_nil.
  - rewrite !gather_cons, Hf. destruct (f 0%nat x) as [o|]; simpl; [|done].
    rewrite (IH (fun j => f (S j)) (fun j => f' (S j))) by (intros; apply Hf).
    destruct (gather (fun j => f (S j)) l); simpl; [|done].
    by rewrite fmap_app.
Qed.

End GatherMore.

Section Provenance.
Context `{FS : FileSystem} `{B : Builtins}.

Lemma occurrence_rows pattern_n occ_n occ_file os :
  observations_of_occurrence pattern_n occ_n occ_file = Some os ->
  Forall2 (fun fields o => observation_of_row pattern_n occ_n fields = Some o)
          (rows_of occ_file) os.
Proof.
  unfold observations_of_occurrence, rows_of.
  destruct (open_read occ_file) as [text|]; simpl; [|done].
  apply mapM_Some_1.
Qed.

(** X13. The document [parse_patterns] writes has one observation for every
    row of every occurrence file of the pattern list, no more and no less. *)
Theorem one_observation_per_row (patterns : list (list string))
    (out_file : string) (w w' : world) :
  parse_patterns patterns out_file w = (inr tt, w') ->
  exists obs,
    w' = written "test.jams" (document_of obs) w
    /\ length obs = total_rows patterns.
Proof.
  intros (obs & Hobs & ->)%parse_patterns_ok_inv.
  exists obs. split; [done|]. unfold total_rows.
  apply (gather_length _ _ _ _ Hobs).
  intros i pattern block _ Hblock.
  apply (gather_length _ _ _ _ Hblock).
  intros j occ_file os _ Hos.
  symmetry. apply (Forall2_length _ _ _ (occurrence_rows _ _ _ _ Hos)).
Qed.

(** X14. The two ids of an observation lead back to where it came from: in
    the document [parse_patterns] writes, an observation with [pattern_id]
    [p] and [occurrence_id] [q] is the observation of a row of the occurrence
    file at position [q - 1] of the pattern at position [p - 1] of the
    pattern list. *)
Theorem ids_lead_back_to_the_row (patterns : list (list string))
    (out_file : string) (w w' : world) :
  parse_patterns patterns out_file w = (inr tt, w') ->
  exists obs,
    w' = written "test.jams" (document_of obs) w
    /\ forall o, o ∈ obs ->
         exists pattern occ_file fields,
           patterns !! Z.to_nat (pattern_id (value o) - 1) = Some pattern
           /\ pattern !! Z.to_nat (occurrence_id (value o) - 1) = Some occ_file
           /\ fields ∈ rows_of occ_file
           /\ observation_of_row (pattern_id (value o))
                (occurrence_id (value o)) fields = Some o.
Proof.
  intros (obs & Hobs & ->)%parse_patterns_ok_inv.
  exists obs. split; [done|].
  intros o [i Hi]%list_elem_of_lookup.
  destruct (gather_lookup _ _ _ _ _ Hobs Hi)
    as (n & pattern & block & j & Hpattern & Hblock & Hj).
  destruct (gather_lookup _ _ _ _ _ Hblock Hj)
    as (m & occ_file & os & k & Hocc & Hos & Hk).
  destruct (Forall2_lookup_r _ _ _ _ _ (occurrence_rows _ _ _ _ Hos) Hk)
    as (fields & Hfields & Hrow).
  destruct (observation_ids _ _ _ _ Hrow) as [Hp Hq].
  exists pattern, occ_file, fields.
  rewrite Hp, Hq.
  replace (Z.to_nat (Z.of_nat n + 1 - 1)) with n by lia.
  replace (Z.to_nat (Z.of_nat m + 1 - 1)) with m by lia.
  repeat split; try done.
  by apply list_elem_of_lookup_2 in Hfields.
Qed.

(** X15. The observations of a document are in the order of their ids: of
    two observations, the later one has a larger [pattern_id], or the same
    [pattern_id] and an [occurrence_id] that is not smaller. *)
Theorem observations_sorted_by_ids (patterns : list (list string))
    (out_file : string) (w w' : world) :
  parse_patterns patterns out_file w = (inr tt, w') ->
  exists obs,
    w' = written "test.jams" (document_of obs) w
    /\ forall i1 i2 o1 o2,
         (i1 <= i2)%nat -> obs !! i1 = Some o1 -> obs !! i2 = Some o2 ->
         pattern_id (value o1) < pattern_id (value o2)
         \/ (pattern_id (value o1) = pattern_id (value o2)
             /\ occurrence_id (value o1) <= occurrence_id (value o2)).
Proof.
  intros (obs & Hobs & ->)%parse_patterns_ok_inv.
  exists obs. split; [done|].
  intros i1 i2 o1 o2 Hle H1 H2.
  destruct (gather_order _ _ _ _ _ _ _ Hobs Hle H1 H2)
    as (n1 & n2 & p1 & p2 & b1 & b2 & j1 & j2
        & Hp1 & Hp2 & Hb1 & Hb2 & Hj1 & Hj2 & Hord).
  rewrite (pattern_block_ids _ _ _ _ Hb1 (list_elem_of_lookup_2 _ _ _ Hj1)).
  rewrite (pattern_block_ids _ _ _ _ Hb2 (list_elem_of_lookup_2 _ _ _ Hj2)).
  destruct Hord as [Hlt|[-> Hjle]]; [left; lia|right].
  split; [done|].
  assert (p2 = p1) as -> by congruence.
  assert (b2 = b1) as -> by congruence.
  destruct (gather_order _ _ _ _ _ _ _ Hb1 Hjle Hj1 Hj2)
    as (m1 & m2 & c1 & c2 & s1 & s2 & k1 & k2
        & Hc1 & Hc2 & Hs1 & Hs2 & Hk1 & Hk2 & Hord).
  destruct (occurrence_ids _ _ _ _ _ Hs1 (list_elem_of_lookup_2 _ _ _ Hk1)) as [_ ->].
  destruct (occurrence_ids _ _ _ _ _ Hs2 (list_elem_of_lookup_2 _ _ _ Hk2)) as [_ ->].
  destruct Hord as [?|[-> _]]; lia.
Qed.

Lemma observation_of_row_renumber pattern_n k occ_n fields :
  observation_of_row (pattern_n + k) occ_n fields
  = renumber k <$> observation_of_row pattern_n occ_n fields.
Proof.
  unfold observation_of_row.
  destruct fields as [|c0 [|c1 [|c2 [|c3 [|c4 rest]]]]]; try done.
  by destruct (py_float c0), (py_float c1), (py_float c2), (py_float c3),
    (py_int c4).
Qed.

Lemma mapM_fmap_out {X Y Y'} (h : Y -> Y') (f : X -> option Y) (l : list X) :
  mapM (fun x => h <$> f x) l
  = fmap (M := option) (fmap (M := list) h) (mapM f l).
Proof.
  induction l as [|x l IH]; simpl; [done|].
  destruct (f x); simpl; [|done]. rewrite IH. by destruct (mapM f l).
Qed.

Lemma observations_of_pattern_renumber pattern_n k pattern :
  observations_of_pattern (pattern_n + k) pattern
  = fmap (M := option) (fmap (M := list) (renumber k))
      (observations_of_pattern pattern_n pattern).
Proof.
  unfold observations_of_pattern. apply gather_fmap_out.
  intros j occ_file. unfold observations_of_occurrence.
  destruct (open_read occ_file) as [text|]; simpl; [|done].
  rewrite <- mapM_fmap_out. apply mapM_ext.
  intros fields. apply observation_of_row_renumber.
Qed.

Lemma written_document_inj obs1 obs2 w :
  written "test.jams" (document_of obs1) w
  = written "test.jams" (document_of obs2) w -> obs1 = obs2.
Proof.
  intros Heq. apply (f_equal saved) in Heq. simpl in Heq.
  apply app_inv_head in Heq. by injection Heq.
Qed.

(** X16. Parsing two pattern lists one after the other as one list gives the
    observations of the first followed by those of the second, the latter
    with their [pattern_id] moved up by the number of patterns of the first;
    [occurrence_id]s and everything else stay. *)
Theorem parse_patterns_app (patterns1 patterns2 : list (list string))
    (out_file : string) (w : world) (obs1 obs2 : list Observation) :
  parse_patterns patterns1 out_file w
  = (inr tt, written "test.jams" (document_of obs1) w) ->
  parse_patterns patterns2 out_file w
  = (inr tt, written "test.jams" (document_of obs2) w) ->
  parse_patterns (patterns1 ++ patterns2) out_file w
  = (inr tt,
     written "test.jams"
       (document_of
          (obs1 ++ (renumber (Z.of_nat (length patterns1)) <$> obs2))) w).
Proof.
  intros (o1 & Ho1 & <-%written_document_inj)%parse_patterns_ok_inv
         (o2 & Ho2 & <-%written_document_inj)%parse_patterns_ok_inv.
  pose proof (parse_patterns_spec (fun _ => True) I I
                (patterns1 ++ patterns2) out_file w (fun _ _ _ _ _ => I))
    as Hspec.
  unfold observations_of_patterns in *.
  rewrite gather_app, Ho1 in Hspec. simpl in Hspec.
  rewrite (gather_fmap_out (renumber (Z.of_nat (length patterns1)))
             (fun i pattern => observations_of_pattern (Z.of_nat i + 1) pattern))
    in Hspec.
  - rewrite Ho2 in Hspec. exact Hspec.
  - intros i pattern. rewrite <- observations_of_pattern_renumber.
    f_equal. lia.
Qed.

End Provenance.

(** The runs of [parse_patterns] on the pattern lists of [Demo.bach]. *)

Lemma one_observation_per_row_bach :
  exists obs,
    written "test.jams" (document_of Demo.bach_mono_obs) Demo.world0
    = written "test.jams" (document_of obs) Demo.world0
    /\ length obs
       = total_rows (FS := Tree.file_system Demo.bach) (B := Python.builtins)
           Demo.bach_mono.
Proof.
  apply (one_observation_per_row
           (FS := Tree.file_system Demo.bach) (B := Python.builtins)
           Demo.bach_mono "out/bach-monophonic.txt" Demo.world0).
  vm_compute. reflexivity.
Defined.

Lemma ids_lead_back_to_the_row_bach :
  exists obs,
    written "test.jams" (document_of Demo.bach_mono_obs) Demo.world0
    = written "test.jams" (document_of obs) Demo.world0
    /\ forall o, o ∈ obs ->
         exists pattern occ_file fields,
           Demo.bach_mono !! Z.to_nat (pattern_id (value o) - 1) = Some pattern
           /\ pattern !! Z.to_nat (occurrence_id (value o) - 1) = Some occ_file
           /\ fields ∈ rows_of (FS := Tree.file_system Demo.bach)
                         (B := Python.builtins) occ_file
           /\ observation_of_row (B := Python.builtins) (pattern_id (value o))
                (occurrence_id (value o)) fields = Some o.
Proof.
  apply (ids_lead_back_to_the_row
           (FS := Tree.file_system Demo.bach) (B := Python.builtins)
           Demo.bach_mono "out/bach-monophonic.txt" Demo.world0).
  vm_compute. reflexivity.
Defined.

Lemma observations_sorted_by_ids_bach :
  exists obs,
    written "test.jams" (document_of Demo.bach_mono_obs) Demo.world0
    = written "test.jams" (document_of obs) Demo.world0
    /\ forall i1 i2 o1 o2,
         (i1 <= i2)%nat -> obs !! i1 = Some o1 -> obs !! i2 = Some o2 ->
         pattern_id (value o1) < pattern_id (value o2)
         \/ (pattern_id (value o1) = pattern_id (value o2)
             /\ occurrence_id (value o1) <= occurrence_id (value o2)).
Proof.
  apply (observations_sorted_by_ids
           (FS := Tree.file_system Demo.bach) (B := Python.builtins)
           Demo.bach_mono "out/bach-monophonic.txt" Demo.world0).
  vm_compute. reflexivity.
Defined.

Lemma parse_patterns_app_bach :
  parse_patterns (FS := Tree.file_system Demo.bach) (B := Python.builtins)
    (Demo.bach_mono ++ Demo.bach_poly) "out/bach.txt" Demo.world0
  = (inr tt,
     written "test.jams"
       (document_of
          (Demo.bach_mono_obs
           ++ (renumber (Z.of_nat (length Demo.bach_mono)) <$> Demo.bach_poly_obs)))
       Demo.world0).
Proof.
  apply (parse_patterns_app
           (FS := Tree.file_system Demo.bach) (B := Python.builtins)).
  - vm_compute. reflexivity.
  - vm_compute. reflexivity.
Defined.

(** ** [process] *)

(** *** Computations that only read *)

Lemma reads_only_ret {A} (a : A) : reads_only (mret a : M A).
Proof. by exists (inr a). Qed.

Lemma reads_only_lift {A} (r : result A) : reads_only (lift r).
Proof. by exists r. Qed.

Lemma reads_only_convert {A} (o : option A) : reads_only (convert o).
Proof. destruct o as [a|]; [by exists (inr a)|by exists (inl ValueError)]. Qed.

Lemma reads_only_bind {A C} (m : M A) (k : A -> M C) :
  reads_only m -> (forall a, reads_only (k a)) -> reads_only (m ≫= k).
Proof.
  intros [[e|a] Hm] Hk.
  - exists (inl e). intros w. by apply bind_raise.
  - destruct (Hk a) as [r Hr]. exists r. intros w.
    by rewrite (bind_ok _ _ _ _ _ (Hm w)).
Qed.

Lemma reads_only_for_each {A S} (xs : list A) (body : A -> S -> M S) (s : S) :
  (forall x s, reads_only (body x s)) -> reads_only (for_each xs body s).
Proof.
  intros Hbody. revert s. induction xs as [|x xs IH]; intros s; simpl.
  - apply reads_only_ret.
  - apply reads_only_bind; [apply Hbody|apply IH].
Qed.

Section Process.
Context `{FS : FileSystem} `{B : Builtins}.

Lemma reads_only_row_body pattern_n occ_n fields annot :
  reads_only (row_body pattern_n occ_n fields annot).
Proof.
  unfold row_body.
  repeat first [ apply reads_only_ret | apply reads_only_lift
               | apply reads_only_convert
               | apply reads_only_bind; [|intros ?] ].
Qed.

Lemma reads_only_occ_body pattern_n occ_file s :
  reads_only (occ_body pattern_n occ_file s).
Proof.
  destruct s as [occ_n annot]. unfold occ_body.
  apply reads_only_bind.
  - unfold open_csv. destruct (open_read occ_file) as [text|].
    + apply reads_only_ret.
    + by exists (inl OSError).
  - intros rows. apply reads_only_bind; [|intros ?; apply reads_only_ret].
    apply reads_only_for_each. intros. apply reads_only_row_body.
Qed.

Lemma reads_only_pattern_body pattern s : reads_only (pattern_body pattern s).
Proof.
  destruct s as [pattern_n annot]. unfold pattern_body.
  apply reads_only_bind.
  - apply reads_only_for_each. intros. apply reads_only_occ_body.
  - intros [? ?]. apply reads_only_ret.
Qed.

(** [parse_patterns] on a pattern list, for every output file name and world
    at once. *)
Lemma parse_patterns_uniform patterns :
  (exists e, forall out_file w, parse_patterns patterns out_file w = (inl e, w))
  \/ (exists obs,
        observations_of_patterns patterns = Some obs
        /\ forall out_file w,
             parse_patterns patterns out_file w
             = (inr tt, written "test.jams" (document_of obs) w)).
Proof.
  destruct (observations_of_patterns patterns) as [obs|] eqn:Hobs.
  - right. exists obs. split; [done|]. intros out_file w.
    pose proof (parse_patterns_spec (fun _ => True) I I patterns out_file w
                  (fun _ _ _ _ _ => I)) as Hspec.
    by rewrite Hobs in Hspec.
  - left.
    destruct (reads_only_for_each patterns pattern_body (1, new_annotation)
                (fun pattern s => reads_only_pattern_body pattern s))
      as [[e|[n annot]] Hloop].
    + exists e. intros out_file w. unfold parse_patterns.
      by rewrite (bind_raise _ _ _ _ _ (Hloop w)).
    + exfalso.
      pose proof (parse_patterns_spec (fun _ => True) I I patterns ""
                    {| made_dirs := []; files := ∅; saved := [] |}
                    (fun _ _ _ _ _ => I)) as Hspec.
      rewrite Hobs in Hspec. destruct Hspec as (e & _ & Hspec).
      unfold parse_patterns in Hspec.
      rewrite (bind_ok _ _ _ _ _ (Hloop _)) in Hspec. discriminate.
Qed.

Lemma write_document_uniform patterns :
  (exists e, forall out_dir w, write_document out_dir patterns tt w = (inl e, w))
  \/ (exists doc,
        (forall out_dir, document_for out_dir patterns doc)
        /\ forall out_dir w,
             write_document out_dir patterns tt w
             = (inr tt, written "test.jams" doc w)).
Proof.
  unfold write_document.
  destruct (get_out_file_uniform patterns)
    as [(e & He)|(occ & occs & rest & pre & a & b & post & _ & _ & _ & Hok)].
  { left. exists e. intros out_dir w. by rewrite He. }
  destruct (parse_patterns_uniform patterns) as [(e & He)|(obs & Hobs & Hrun)].
  - left. exists e. intros out_dir w. rewrite Hok.
    unfold mbind, M_bind, bind, lift. apply He.
  - right. exists (document_of obs). split.
    + intros out_dir. split; [by eexists|by exists obs].
    + intros out_dir w. rewrite Hok.
      unfold mbind, M_bind, bind, lift. apply Hrun.
Qed.

(** The second loop of [process], for every output directory and world at
    once: it writes the documents of the pattern lists up to the first one
    that raises, and returns that exception, or writes them all. *)
Lemma write_loop_uniform all_patterns :
  exists (docs : list JAMS) (r : result unit),
    (forall out_dir,
       Forall2 (document_for out_dir) (take (length docs) all_patterns) docs)
    /\ (length docs <= length all_patterns)%nat
    /\ (r = inr tt <-> length docs = length all_patterns)
    /\ forall out_dir w,
         for_each all_patterns (write_document out_dir) tt w
         = (r, foldl (fun w doc => written "test.jams" doc w) w docs).
Proof.
  induction all_patterns as [|patterns all_patterns IH].
  - exists [], (inr tt).
    split; [intros; constructor|]. split; [done|]. split; [done|]. done.
  - destruct (write_document_uniform patterns) as [(e & He)|(doc & Hdoc & Hrun)].
    + exists [], (inl e).
      split; [intros; constructor|]. split; [simpl; lia|].
      split; [split; [done|simpl; lia]|].
      intros out_dir w. simpl for_each.
      by rewrite (bind_raise _ _ _ _ _ (He out_dir w)).
    + destruct IH as (docs & r & Hdocs & Hlen & Hr & Hloop).
      exists (doc :: docs), r.
      split; [intros out_dir; simpl; constructor; [apply Hdoc|apply Hdocs]|].
      split; [simpl; lia|].
      split.
      * split; [intros Heq%Hr; simpl; lia|].
        simpl. intros Heq. apply Hr. lia.
      * intros out_dir w. simpl for_each.
        rewrite (bind_ok _ _ _ _ _ (Hrun out_dir w)). apply Hloop.
Qed.


(** X17. However [process] ends, what it saved are the complete documents of
    the first so many pattern lists, in order, one save each and all under
    [test.jams].  When it returned normally it saved one for every pattern
    list; and when the output directory was there or could be created and
    every pattern list got its document, it returned normally.  A pattern
    list that raises stops the run without a save, and so does an output
    directory that cannot be created. *)
Theorem process_saves_whole_documents (jku_dir out_dir : string)
    (w w' : world) (r : result unit) :
  process jku_dir out_dir w = (r, w') ->
  exists docs,
    Forall2 (document_for out_dir)
      (take (length docs)
         (collect_patterns (glob (path_join jku_dir ["groundTruth"; "*"]%string))))
      docs
    /\ saved w' = saved w ++ ((fun doc => ("test.jams"%string, doc)) <$> docs)
    /\ (r = inr tt
        -> length docs
           = length (collect_patterns
                       (glob (path_join jku_dir ["groundTruth"; "*"]%string))))
    /\ (out_dir_ready out_dir
        -> length docs
           = length (collect_patterns
                       (glob (path_join jku_dir ["groundTruth"; "*"]%string)))
        -> r = inr tt).
Proof.
  rewrite process_unfold.
  destruct (prepared out_dir w) as [e|w0] eqn:Hprep.
  - intros [= <- <-]. exists [].
    split; [constructor|]. split; [by rewrite app_nil_r|]. split; [done|].
    intros [w0 Hw0]%(prepared_ready _ w). congruence.
  - destruct (write_loop_uniform
                (collect_patterns (glob (path_join jku_dir ["groundTruth"; "*"]%string))))
      as (docs & r' & Hdocs & _ & Hr & Hloop).
    rewrite Hloop. intros [= <- <-].
    exists docs. split; [apply Hdocs|]. split.
    + rewrite written_fold_saved.
      by destruct (prepared_output _ _ _ Hprep) as [_ ->].
    + split; [apply Hr|]. intros _. apply Hr.
Qed.

(** X18. For two output directories that both exist already, [process] does
    the same: the same result, the exception included, and the same saves,
    files and directories.  The output directory serves for nothing but the
    file name that is derived and then not used. *)
Theorem process_ignores_out_dir_for_writing (jku_dir out_dir1 out_dir2 : string)
    (w : world) :
  path_exists out_dir1 = true -> path_exists out_dir2 = true ->
  process jku_dir out_dir1 w = process jku_dir out_dir2 w.
Proof.
  intros H1 H2. rewrite !process_unfold. unfold prepared. rewrite H1, H2.
  destruct (write_loop_uniform
              (collect_patterns (glob (path_join jku_dir ["groundTruth"; "*"]%string))))
    as (docs & r & _ & _ & _ & Hloop).
  by rewrite !Hloop.
Qed.


End Process.

(** On [Demo.mono_only] the monophonic document is saved, then the empty
    polyphonic pattern list stops the run. *)
Lemma process_saves_whole_documents_mono_only :
  let FS := Tree.file_system Demo.mono_only in
  let r := (process (B := Python.builtins) "jku" "out" Demo.world0).1 in
  let w' := (process (B := Python.builtins) "jku" "out" Demo.world0).2 in
  exists docs,
    Forall2 (document_for (B := Python.builtins) "out")
      (take (length docs)
         (collect_patterns (glob (path_join "jku" ["groundTruth"; "*"]%string))))
      docs
    /\ saved w' = saved Demo.world0
                  ++ ((fun doc => ("test.jams"%string, doc)) <$> docs)
    /\ (r = inr tt
        -> length docs
           = length (collect_patterns
                       (glob (path_join "jku" ["groundTruth"; "*"]%string))))
    /\ (out_dir_ready "out"
        -> length docs
           = length (collect_patterns
                       (glob (path_join "jku" ["groundTruth"; "*"]%string)))
        -> r = inr tt).
Proof.
  intros FS r w'.
  apply (process_saves_whole_documents (FS := FS) (B := Python.builtins)
           "jku" "out" Demo.world0 w' r).
  vm_compute. reflexivity.
Defined.

(** On [Demo.with_outputs] the directories [out1] and [out2] are there. *)
Lemma process_ignores_out_dir_for_writing_outputs :
  let FS := Tree.file_system Demo.with_outputs in
  process (B := Python.builtins) "jku" "out1" Demo.world0
  = process (B := Python.builtins) "jku" "out2" Demo.world0.
Proof.
  intros FS.
  apply (process_ignores_out_dir_for_writing (FS := FS) (B := Python.builtins));
    reflexivity.
Defined.

Section Stops.
Context `{FS : FileSystem} `{B : Builtins}.

(** X20. When the output directory is there or can be created and the piece
    listed first has no monophonic pattern directory (for instance no
    monophonic annotator at all), [process] raises [AssertionError] before
    anything is saved, whatever the polyphonic side of that piece and the
    other pieces hold. *)
Theorem process_stops_without_monophonic_patterns (jku_dir out_dir : string)
    (piece : string) (pieces : list string) (w : world) :
  out_dir_ready out_dir ->
  glob (path_join jku_dir ["groundTruth"; "*"]%string) = piece :: pieces ->
  pattern_dirs
    (glob (path_join piece ["monophonic"; "repeatedPatterns"; "*"]%string)) = [] ->
  (process jku_dir out_dir w).1 = inl AssertionError
  /\ saved (process jku_dir out_dir w).2 = saved w
  /\ files (process jku_dir out_dir w).2 = files w.
Proof.
  intros [w0 Hprep]%(prepared_ready _ w) Hpieces Hdirs.
  assert (get_gt_patterns (annotators_of piece "monophonic") = []) as Hmono.
  { rewrite get_gt_patterns_spec. unfold annotators_of. simpl.
    by rewrite Hdirs. }
  assert (process jku_dir out_dir w = (inl AssertionError, w0)) as ->.
  { rewrite process_unfold, Hprep, Hpieces, collect_patterns_spec, bind_cons.
    unfold patterns_of_piece at 1. rewrite Hmono. reflexivity. }
  simpl. destruct (prepared_output _ _ _ Hprep) as [-> ->]. done.
Qed.

(** X21. When the pattern directory listed first under the annotators has no
    occurrence file, the round of [process] for that pattern list raises
    [IndexError] and writes nothing, whatever the later pattern directories
    hold: no file name can be derived. *)
Theorem first_pattern_without_occurrences_stops (annotators : list string)
    (p : string) (ps : list string) (out_dir : string) (w : world) :
  pattern_dirs annotators = p :: ps ->
  occurrences_of p = [] ->
  write_document out_dir (get_gt_patterns annotators) tt w = (inl IndexError, w).
Proof.
  intros Hdirs Hocc. rewrite get_gt_patterns_spec, Hdirs. simpl.
  rewrite Hocc. reflexivity.
Qed.

End Stops.

Lemma process_stops_without_monophonic_patterns_poly_only :
  let FS := Tree.file_system Demo.poly_only in
  (process (B := Python.builtins) "jku" "out" Demo.world0).1 = inl AssertionError
  /\ saved (process (B := Python.builtins) "jku" "out" Demo.world0).2
     = saved Demo.world0
  /\ files (process (B := Python.builtins) "jku" "out" Demo.world0).2
     = files Demo.world0.
Proof.
  intros FS.
  apply (process_stops_without_monophonic_patterns
           (FS := FS) (B := Python.builtins) "jku" "out"
           "jku/groundTruth/bach" [] Demo.world0).
  - right. by exists ["out"%string].
  - reflexivity.
  - reflexivity.
Defined.

Lemma first_pattern_without_occurrences_stops_empty_first :
  let FS := Tree.file_system Demo.empty_first in
  write_document (B := Python.builtins) "out"
    (get_gt_patterns [Demo.annotatorX]) tt Demo.world0
  = (inl IndexError, Demo.world0).
Proof.
  intros FS.
  apply (first_pattern_without_occurrences_stops
           (FS := FS) (B := Python.builtins) [Demo.annotatorX]
           "jku/groundTruth/bach/monophonic/repeatedPatterns/annotatorX/E"
           ["jku/groundTruth/bach/monophonic/repeatedPatterns/annotatorX/A"%string]).
  - reflexivity.
  - reflexivity.
Defined.
